(** * A verified model of the TFTP server (package [server])

    The development embeds the packet codec of [server/types.go] and the
    transfer loop of [server/server.go] as Rocq functions and proves the
    properties of the design document about them.

    Conventions of the embedding:
    - a Go [byte] is a [Byte.byte]; a [[]byte] seen through a
      [bytes.Buffer] or [bytes.Reader] is the [list byte] of its unread part;
    - a Go [string] is its byte sequence, a [list byte] too;
    - a [uint16] is a [Z] kept in [0, 65536) with the wrap-around written out;
    - a Go [error] result is an [option error], [None] standing for [nil];
    - a method with a pointer receiver returns the updated receiver. *)

From Stdlib Require Import Strings.Byte Strings.String.
From Stdlib Require Import List ZArith NArith Lia Bool Arith.
Import ListNotations.
Open Scope string_scope.
Open Scope list_scope.

Set Implicit Arguments.

(* ================================================================= *)
(** ** Bytes and 16-bit words *)

Definition byte := Byte.byte.
Definition gostring := list byte.

Definition byte_to_Z (b : byte) : Z := Z.of_N (Byte.to_N b).

(** Go's conversion [byte(v)] keeps the low eight bits. *)
Definition byte_of_Z (z : Z) : byte :=
  match Byte.of_N (Z.to_N (z mod 256)) with
  | Some b => b
  | None => x00
  end.

Definition byte_eqb (a b : byte) : bool := Byte.eqb a b.

Definition bytes_eqb (a b : list byte) : bool :=
  if list_eq_dec Byte.byte_eq_dec a b then true else false.

Definition uint16_wrap (z : Z) : Z := z mod 65536.

Definition is_uint16 (z : Z) : Prop := (0 <= z < 65536)%Z.

(** [binary.BigEndian.PutUint16]: [b[0] = byte(v >> 8); b[1] = byte(v)]. *)
Definition PutUint16 (v : Z) : list byte :=
  [byte_of_Z (Z.shiftr v 8); byte_of_Z v].

(** [binary.BigEndian.Uint16]: [uint16(b[1]) | uint16(b[0])<<8]. *)
Definition Uint16 (b0 b1 : byte) : Z :=
  Z.lor (byte_to_Z b1) (Z.shiftl (byte_to_Z b0) 8).

(* ================================================================= *)
(** ** Errors and readers *)

Inductive error : Type :=
| EOF                          (* io.EOF *)
| ErrUnexpectedEOF             (* io.ErrUnexpectedEOF *)
| Errorf (msg : string).       (* fmt.Errorf(msg) *)

(** [binary.Write(buf, binary.BigEndian, v)] for a 16-bit [v]: appends two
    bytes to the buffer; a [bytes.Buffer] never reports a write error. *)
Definition binary_Write (buf : list byte) (v : Z) : list byte * option error :=
  (buf ++ PutUint16 v, None).

Definition WriteString (buf : list byte) (s : gostring) : list byte * option error :=
  (buf ++ s, None).

Definition WriteByte (buf : list byte) (c : byte) : list byte * option error :=
  (buf ++ [c], None).

(** [binary.Read(reader, binary.BigEndian, &v)] for a 16-bit [v]: an
    [io.ReadFull] of two bytes.  Returns the unread rest and either the
    value or the error; nothing is stored on error. *)
Definition binary_Read (reader : list byte) : list byte * (Z + error) :=
  match reader with
  | [] => ([], inr EOF)
  | [_] => ([], inr ErrUnexpectedEOF)
  | b0 :: b1 :: rest => (rest, inl (Uint16 b0 b1))
  end.

(** [ReadString(delim)] of a [bytes.Buffer]: the data up to and including the
    first [delim]; when there is none, all the data and [io.EOF]. *)
Fixpoint ReadString (delim : byte) (reader : list byte)
  : gostring * list byte * option error :=
  match reader with
  | [] => ([], [], Some EOF)
  | b :: rest =>
      if byte_eqb b delim then ([b], rest, None)
      else let '(line, rest', err) := ReadString delim rest in
           (b :: line, rest', err)
  end.

(** [strings.TrimRight(s, "\x00")]: [s] without its trailing zero bytes. *)
Fixpoint TrimRight_NUL (s : gostring) : gostring :=
  match s with
  | [] => []
  | b :: t =>
      match TrimRight_NUL t with
      | [] => if byte_eqb b x00 then [] else [b]
      | t' => b :: t'
      end
  end.

(** [strings.ToLower] on the ASCII letters: ['A'..'Z'] move down by 32, any
    other byte is kept.  On a string with bytes of 0x80 and above Go maps
    whole runes with [unicode.ToLower]; no rune outside ASCII is mapped to one
    of the letters of [octet], so the comparison with ["octet"] that follows
    every use of [ToLower] in the package is decided the same way. *)
Definition lower_byte (b : byte) : byte :=
  let z := byte_to_Z b in
  if ((65 <=? z) && (z <=? 90))%Z then byte_of_Z (z + 32) else b.

Definition ToLower (s : gostring) : gostring := map lower_byte s.

Definition octet : gostring := list_byte_of_string "octet".

(* ================================================================= *)
(** ** Opcodes and error codes *)

Definition ReadOp : Z := 1.
Definition WriteOp : Z := 2.
Definition DataOp : Z := 3.
Definition AcknowledgmentOp : Z := 4.
Definition ErrorOp : Z := 5.

Definition ErrUnknown : Z := 0.
Definition ErrNotFound : Z := 1.
Definition ErrAccessViolation : Z := 2.
Definition ErrDiskFull : Z := 3.
Definition ErrIllegalOp : Z := 4.
Definition ErrUnknownID : Z := 5.
Definition ErrFileExists : Z := 6.
Definition ErrNoUser : Z := 7.

Definition DatagramSize : nat := 516.
Definition BlockSize : nat := DatagramSize - 4.

(* ================================================================= *)
(** ** Acknowledgment *)

Record Acknowledgment := { ack_BlockNum : Z }.

Definition Acknowledgment_MarshalBinary (a : Acknowledgment)
  : list byte * option error :=
  let b := [] in
  let '(b, err) := binary_Write b AcknowledgmentOp in
  match err with Some e => ([], Some e) | None =>
  let '(b, err) := binary_Write b (ack_BlockNum a) in
  match err with Some e => ([], Some e) | None =>
  (b, None)
  end end.

Definition Acknowledgment_UnmarshalBinary (a : Acknowledgment) (buf : list byte)
  : Acknowledgment * option error :=
  let reader := buf in
  match binary_Read reader with
  | (_, inr e) => (a, Some e)
  | (reader, inl code) =>
      if negb (code =? AcknowledgmentOp)%Z
      then (a, Some (Errorf "invalid Acknowledgment"))
      else match binary_Read reader with
           | (_, inr e) => (a, Some e)
           | (_, inl v) => ({| ack_BlockNum := v |}, None)
           end
  end.

(* ================================================================= *)
(** ** ReadWriteRequest *)

Record ReadWriteRequest := { Filename : gostring; Mode : gostring }.

Definition ReadWriteRequest_MarshalBinary (r : ReadWriteRequest)
  : list byte * option error :=
  let mode := if negb (bytes_eqb (Mode r) []) then Mode r else octet in
  let buf := [] in
  let '(buf, err) := binary_Write buf ReadOp in
  match err with Some e => ([], Some e) | None =>
  let '(buf, err) := WriteString buf (Filename r) in
  match err with Some e => ([], Some e) | None =>
  let '(buf, err) := WriteByte buf x00 in
  match err with Some e => ([], Some e) | None =>
  let '(buf, err) := WriteString buf mode in
  match err with Some e => ([], Some e) | None =>
  let '(buf, err) := WriteByte buf x00 in
  match err with Some e => ([], Some e) | None =>
  (buf, None)
  end end end end end.

Definition invalid_request : error := Errorf "invalid Read/Write request".
Definition unsupported_mode : error :=
  Errorf "binary (octet) is the only supported transfer".

(** The receiver is written field by field, also on the failing paths, as
    the assignments [r.Filename, err = ...] and [r.Mode, err = ...] do. *)
Definition ReadWriteRequest_UnmarshalBinary (r : ReadWriteRequest)
  (buf : list byte) : ReadWriteRequest * option error :=
  let reader := buf in
  match binary_Read reader with
  | (_, inr e) => (r, Some e)
  | (reader, inl code) =>
      if negb (code =? ReadOp)%Z && negb (code =? WriteOp)%Z
      then (r, Some invalid_request)
      else
        let '(fname, reader, err) := ReadString x00 reader in
        let r := {| Filename := fname; Mode := Mode r |} in
        match err with Some _ => (r, Some invalid_request) | None =>
        let r := {| Filename := TrimRight_NUL (Filename r); Mode := Mode r |} in
        if (length (Filename r) =? 0)%nat then (r, Some invalid_request)
        else
          let '(mode, reader, err) := ReadString x00 reader in
          let r := {| Filename := Filename r; Mode := mode |} in
          match err with Some _ => (r, Some invalid_request) | None =>
          let r := {| Filename := Filename r;
                      Mode := TrimRight_NUL (Mode r) |} in
          let r := {| Filename := Filename r; Mode := ToLower (Mode r) |} in
          if negb (bytes_eqb (Mode r) octet) then (r, Some unsupported_mode)
          else (r, None)
          end
        end
  end.

(* ================================================================= *)
(** ** Data *)

(** [Payload] is an [io.Reader]; the server's is a [bytes.Reader] over the
    served file, held here as the bytes not read yet. *)
Record Data := { BlockNum : Z; Payload : list byte }.

Definition is_EOF (e : error) : bool :=
  match e with EOF => true | _ => false end.

(** [io.CopyN(dst, src, n)] from a reader over bytes: moves up to [n] bytes;
    reports [io.EOF] when the source ran dry before [n] bytes.  Returns the
    destination, the source after the read, the count and the error. *)
Definition io_CopyN (dst src : list byte) (n : nat)
  : list byte * list byte * nat * option error :=
  let chunk := firstn n src in
  (dst ++ chunk, skipn n src, length chunk,
   if (length chunk <? n)%nat then Some EOF else None).

(** [d.BlockNum++] on a [uint16] wraps modulo 65536. *)
Definition Data_MarshalBinary (d : Data) : (list byte * option error) * Data :=
  let buf := [] in
  let '(buf, err) := binary_Write buf DataOp in
  match err with Some e => (([], Some e), d) | None =>
  let d := {| BlockNum := uint16_wrap (BlockNum d + 1); Payload := Payload d |} in
  let '(buf, err) := binary_Write buf (BlockNum d) in
  match err with Some e => (([], Some e), d) | None =>
  let '(buf, src, _, err) := io_CopyN buf (Payload d) BlockSize in
  let d := {| BlockNum := BlockNum d; Payload := src |} in
  match err with
  | Some e => if negb (is_EOF e) then (([], Some e), d) else ((buf, None), d)
  | None => ((buf, None), d)
  end
  end end.

(** A Go slice: the part of its backing array that starts at the slice's
    first element (its length is the capacity) and the slice's length.
    Slice expressions check their bounds at run time and panic. *)
Record slice := { backing : list byte; len : nat }.

Definition cap (b : slice) : nat := length (backing b).
Definition well_formed (b : slice) : Prop := len b <= cap b.
Definition contents (b : slice) : list byte := firstn (len b) (backing b).

(** A slice literal or a freshly read buffer: length and capacity agree. *)
Definition slice_of (l : list byte) : slice :=
  {| backing := l; len := length l |}.

Inductive may_panic (A : Type) : Type :=
| Returns (a : A)
| Panics.
Arguments Panics {A}.

(** [b[lo:hi]]: allowed when [lo <= hi <= cap(b)]. *)
Definition slice_range (b : slice) (lo hi : nat) : may_panic slice :=
  if (lo <=? hi)%nat && (hi <=? cap b)%nat
  then Returns {| backing := skipn lo (backing b); len := hi - lo |}
  else Panics.

(** [b[lo:]]: the upper bound is [len(b)], allowed when [lo <= len(b)]. *)
Definition slice_from (b : slice) (lo : nat) : may_panic slice :=
  if (lo <=? len b)%nat
  then Returns {| backing := skipn lo (backing b); len := len b - lo |}
  else Panics.

Definition invalid_data : error := Errorf "invalid Data".

Definition Data_UnmarshalBinary (d : Data) (buf : slice)
  : may_panic (Data * option error) :=
  match slice_range buf 0 2 with Panics => Panics | Returns b01 =>
  match binary_Read (contents b01) with
  | (_, inr e) => Returns (d, Some e)
  | (_, inl code) =>
      if negb (code =? DataOp)%Z then Returns (d, Some invalid_data)
      else
        match slice_range buf 2 4 with Panics => Panics | Returns b23 =>
        match binary_Read (contents b23) with
        | (_, inr e) => Returns (d, Some e)
        | (_, inl v) =>
            let d := {| BlockNum := v; Payload := Payload d |} in
            match slice_from buf 4 with Panics => Panics | Returns rest =>
            let d := {| BlockNum := BlockNum d; Payload := contents rest |} in
            Returns (d, None)
            end
        end end
  end end.

(* ================================================================= *)
(** ** Err *)

Record Err := { Code : Z; Message : gostring }.

Definition Err_MarshalBinary (e : Err) : list byte * option error :=
  let b := [] in
  let '(b, err) := binary_Write b ErrorOp in
  match err with Some e => ([], Some e) | None =>
  let '(b, err) := binary_Write b (Code e) in
  match err with Some e => ([], Some e) | None =>
  let '(b, err) := WriteString b (Message e) in
  match err with Some e => ([], Some e) | None =>
  let '(b, err) := WriteByte b x00 in
  match err with Some e => ([], Some e) | None =>
  (b, None)
  end end end end.

Definition invalid_error : error := Errorf "invalid Error".

Definition Err_UnmarshalBinary (e : Err) (buf : list byte)
  : Err * option error :=
  let reader := buf in
  match binary_Read reader with
  | (_, inr err) => (e, Some err)
  | (reader, inl code) =>
      if negb (code =? ErrorOp)%Z then (e, Some invalid_error)
      else
        match binary_Read reader with
        | (_, inr err) => (e, Some err)
        | (reader, inl c) =>
            let e := {| Code := c; Message := Message e |} in
            let '(msg, reader, err) := ReadString x00 reader in
            let e := {| Code := Code e; Message := msg |} in
            let e := {| Code := Code e;
                        Message := TrimRight_NUL (Message e) |} in
            (e, err)
        end
  end.

(* ================================================================= *)
(** ** The server *)

Definition Addr := string.

(** [retries] is a [uint8]; [timeout] is kept in seconds. *)
Record TFTPServer := {
  address : Addr;
  payload : list byte;
  retries : nat;
  timeout : Z
}.

(** [p] is the content of the served file, read by [ioutil.ReadFile];
    [addr] is [net.JoinHostPort(host, strconv.Itoa(port))]. *)
Definition NewTFTPServer (addr : Addr) (p : list byte) : TFTPServer :=
  {| address := addr; payload := p; retries := 10; timeout := 5 |}.

(** What the network does at one attempt of a session, that is at one
    [conn.Write(data)] followed, when the write went through, by one
    [conn.Read(buf)] under the deadline. *)
Inductive net_event : Type :=
| WriteFails                       (* conn.Write returns an error *)
| ReadTimeout                      (* conn.Read fails, a net.Error with Timeout() *)
| ReadFails                        (* conn.Read fails otherwise *)
| Reply (dgram : list byte).       (* conn.Read receives this datagram *)

(** The peer and the network: the outcome of the attempt number [k] of the
    session (counted from 0), given the datagram written at that attempt. *)
Definition client := nat -> list byte -> net_event.

(** [conn.Read(buf)] on a datagram socket: the datagram overwrites the front
    of [buf], cut at [len(buf)]; the bytes behind it stay as they were. *)
Definition conn_Read (buf dgram : list byte) : list byte :=
  firstn (length buf) dgram ++ skipn (length dgram) buf.

(** [binary.BigEndian.Uint16(buf[:2])].  [buf] has [DatagramSize] bytes all
    along [handle]; on a shorter list, where Go would panic, the value is 0. *)
Definition opcode_of (buf : list byte) : Z :=
  match buf with
  | b0 :: b1 :: _ => Uint16 b0 b1
  | _ => 0%Z
  end.

(** The variables of [handle] that the loops share, and the number of
    attempts made so far on the connection. *)
Record locals := {
  v_code : Z;
  v_ackM : Acknowledgment;
  v_errM : Err;
  v_buf : list byte;
  v_n : nat;
  v_clock : nat
}.

Inductive abort : Type :=
| MarshalError          (* "preparing data packet" *)
| WriteError            (* "write" *)
| ReadError             (* "waiting for ACK" *)
| PeerError             (* "received error" *)
| RetriesExhausted.     (* "exhausted retries" *)

(** How one turn of the loop [RETRIES] ends. *)
Inductive control : Type :=
| next_iteration        (* continue RETRIES, or the end of the body: i++ *)
| continue_NEXT_PACKET  (* continue NEXT_PACKET *)
| return_ (why : abort). (* return *)

Inductive loop_exit : Type :=
| ContinueNext          (* left by continue NEXT_PACKET *)
| Return (why : abort)  (* left by return *)
| LoopEnd.              (* the condition i < int(s.retries) failed *)

Definition after_Write (v : locals) (n : nat) : locals :=
  {| v_code := v_code v; v_ackM := v_ackM v; v_errM := v_errM v;
     v_buf := v_buf v; v_n := n; v_clock := S (v_clock v) |}.

Definition set_buf (v : locals) (buf : list byte) : locals :=
  {| v_code := v_code v; v_ackM := v_ackM v; v_errM := v_errM v;
     v_buf := buf; v_n := v_n v; v_clock := v_clock v |}.

Definition set_code (v : locals) (code : Z) : locals :=
  {| v_code := code; v_ackM := v_ackM v; v_errM := v_errM v;
     v_buf := v_buf v; v_n := v_n v; v_clock := v_clock v |}.

Definition set_ackM (v : locals) (a : Acknowledgment) : locals :=
  {| v_code := v_code v; v_ackM := a; v_errM := v_errM v;
     v_buf := v_buf v; v_n := v_n v; v_clock := v_clock v |}.

Definition set_errM (v : locals) (e : Err) : locals :=
  {| v_code := v_code v; v_ackM := v_ackM v; v_errM := e;
     v_buf := v_buf v; v_n := v_n v; v_clock := v_clock v |}.

Section Session.

Variable s : TFTPServer.
Variable env : client.

(** The body of the loop [RETRIES]: one write of [data], one read, and the
    switch on the opcode of the reply.  Gives how the turn ends, the
    variables, and the datagram written, if any. *)
Definition RETRIES_body (data : list byte) (dataM : Data) (v : locals)
  : control * locals * list (list byte) :=
  match env (v_clock v) data with
  | WriteFails => (return_ WriteError, after_Write v 0, [])
  | ReadTimeout => (next_iteration, after_Write v (length data), [data])
  | ReadFails => (return_ ReadError, after_Write v (length data), [data])
  | Reply dgram =>
      let v := after_Write v (length data) in
      let v := set_buf v (conn_Read (v_buf v) dgram) in
      let v := set_code v (opcode_of (v_buf v)) in
      if (v_code v =? AcknowledgmentOp)%Z then
        let '(ackM, err) :=
          Acknowledgment_UnmarshalBinary (v_ackM v) (v_buf v) in
        let v := set_ackM v ackM in
        match err with
        | Some _ => (next_iteration, v, [data])
        | None =>
            if (ack_BlockNum (v_ackM v) =? BlockNum dataM)%Z
            then (continue_NEXT_PACKET, v, [data])
            else (next_iteration, v, [data])
        end
      else if (v_code v =? ErrorOp)%Z then
        let '(errM, err) := Err_UnmarshalBinary (v_errM v) (v_buf v) in
        let v := set_errM v errM in
        match err with
        | Some _ => (next_iteration, v, [data])
        | None => (return_ PeerError, v, [data])
        end
      else (* default: "bad packet" is logged and the body ends *)
        (next_iteration, v, [data])
  end.

(** The loop [RETRIES], with [rem = int(s.retries) - i] turns to go.  Gives
    the way the loop is left, the variables, and the datagrams written to
    the connection, oldest first. *)
Fixpoint RETRIES (rem : nat) (data : list byte) (dataM : Data) (v : locals)
  : loop_exit * locals * list (list byte) :=
  match rem with
  | O => (LoopEnd, v, [])
  | S rem' =>
      let '(c, v1, out1) := RETRIES_body data dataM v in
      match c with
      | next_iteration =>
          let '(x, v2, out2) := RETRIES rem' data dataM v1 in
          (x, v2, out1 ++ out2)
      | continue_NEXT_PACKET => (ContinueNext, v1, out1)
      | return_ why => (Return why, v1, out1)
      end
  end.

Inductive outcome : Type :=
| Completed             (* "sent %d blocks" *)
| Aborted (why : abort)
| OutOfFuel.

(** The loop [NEXT_PACKET].  Its condition [n == DatagramSize] is tested
    first; [fuel] bounds the number of blocks still to prepare. *)
Fixpoint NEXT_PACKET (fuel : nat) (dataM : Data) (v : locals)
  : outcome * Data * list (list byte) :=
  if (v_n v =? DatagramSize)%nat then
    match fuel with
    | O => (OutOfFuel, dataM, [])
    | S fuel' =>
        let '((data, err), dataM) := Data_MarshalBinary dataM in
        match err with
        | Some _ => (Aborted MarshalError, dataM, [])
        | None =>
            match RETRIES (retries s) data dataM v with
            | (ContinueNext, v', out) =>
                let '(o, dataM', out') := NEXT_PACKET fuel' dataM v' in
                (o, dataM', out ++ out')
            | (Return why, _, out) => (Aborted why, dataM, out)
            | (LoopEnd, _, out) => (Aborted RetriesExhausted, dataM, out)
            end
        end
    end
  else (Completed, dataM, []).

(** The variables of [handle] at the entry of [NEXT_PACKET]: zero values,
    the reader over the whole payload, a zeroed reply buffer, [n] at
    [DatagramSize]. *)
Definition handle_locals : locals :=
  {| v_code := 0; v_ackM := {| ack_BlockNum := 0 |};
     v_errM := {| Code := 0; Message := [] |};
     v_buf := repeat x00 DatagramSize; v_n := DatagramSize; v_clock := 0 |}.

Definition handle_dataM : Data := {| BlockNum := 0; Payload := payload s |}.

(** [handle], once [net.Dial] has given the connection.  A payload of [L]
    bytes takes at most [L / 512 + 1] blocks (see [handle_terminates]). *)
Definition handle : outcome * Data * list (list byte) :=
  NEXT_PACKET (S (length (payload s) / BlockSize)) handle_dataM handle_locals.

End Session.

(** The result of a session: what it wrote to the connection, how it ended
    and the last block number. *)
Definition sent (r : outcome * Data * list (list byte)) : list (list byte) :=
  snd r.
Definition ending (r : outcome * Data * list (list byte)) : outcome :=
  fst (fst r).
Definition blocks (r : outcome * Data * list (list byte)) : Z :=
  BlockNum (snd (fst r)).

(** What a datagram of the session carries behind the opcode: the block
    number in bytes 2 and 3, the payload from byte 4 on. *)
Definition block_number (dgram : list byte) : Z := opcode_of (skipn 2 dgram).
Definition payload_of (dgram : list byte) : list byte := skipn 4 dgram.

(** A client that acknowledges every block: whatever the attempt, its reply
    to a datagram is the acknowledgment of the block number it carries. *)
Definition acknowledges_every_block (env : client) : Prop :=
  forall k data,
    env k data
    = Reply (fst (Acknowledgment_MarshalBinary
                    {| ack_BlockNum := block_number data |})).

Definition acking_client : client :=
  fun _ data =>
    Reply (fst (Acknowledgment_MarshalBinary
                  {| ack_BlockNum := block_number data |})).

(** A client that never replies from the attempt [k0] on: every read runs
    into its deadline. *)
Definition never_replies_from (env : client) (k0 : nat) : Prop :=
  forall k data, k0 <= k -> env k data = ReadTimeout.

Definition silent_client : client := fun _ _ => ReadTimeout.

(** The variables after a turn of [RETRIES] that received [dgram]. *)
Definition after_reply (v : locals) (data dgram : list byte) : locals :=
  let buf := conn_Read (v_buf v) dgram in
  set_code (set_buf (after_Write v (length data)) buf) (opcode_of buf).

(** Scenario D: the first block of an empty payload, answered once by an
    acknowledgment of block 0, then by the acknowledgment of block 1. *)
Definition duplicate_ack_client : client :=
  fun k data =>
    if (k =? 0)%nat then Reply [x00; x04; x00; x00] else acking_client k data.


(** A client whose read fails, not by a timeout, at the second attempt. *)
Definition broken_client : client :=
  fun k data => if (k =? 1)%nat then ReadFails else ReadTimeout.

(** A list without its immediate repetitions. *)
Fixpoint squash (l : list Z) : list Z :=
  match l with
  | [] => []
  | x :: t =>
      match t with
      | [] => [x]
      | y :: _ => if (x =? y)%Z then squash t else x :: squash t
      end
  end.

(** The lengths of the maximal runs of equal neighbours of a list: how
    many times in a row each element stands. *)
Fixpoint runs (l : list Z) : list nat :=
  match l with
  | [] => []
  | x :: t =>
      match runs t with
      | [] => [1]
      | k :: ks => if (x =? hd x t)%Z then S k :: ks else 1 :: k :: ks
      end
  end.

(** The shape of a datagram of the session: opcode Data, a 16-bit block
    number, a payload of at most [BlockSize] bytes. *)
Definition Data_datagram (dgram : list byte) : Prop :=
  exists bn chunk,
    is_uint16 bn /\ length chunk <= BlockSize /\
    dgram = x00 :: x03 :: PutUint16 bn ++ chunk.

(* ================================================================= *)
(** ** The dispatcher *)

(** What [listener.ReadFrom] gives at one turn of the loop. *)
Inductive inbound : Type :=
| RecvFails (e : error)
| Recv (dgram : list byte) (senderAddr : Addr).

(** What the dispatcher does that others can see. *)
Inductive action : Type :=
| WriteTo (b : list byte) (to : Addr)              (* listener.WriteTo *)
| Go_handle (clientAddr : Addr) (request : ReadWriteRequest). (* go s.handle *)

(** The reply of the dispatcher to a request it cannot decode:
    [[]byte{byte(ErrorOp), byte(ErrIllegalOp), 0}]. *)
Definition illegal_reply : list byte :=
  [byte_of_Z ErrorOp; byte_of_Z ErrIllegalOp; byte_of_Z 0].

(** The loop of [ListenAndServe] over the datagrams that arrive, in order.
    [rwRequest] is declared outside the loop and decoded into at every turn;
    [buf] is a fresh zeroed array at every turn.  Gives the actions and, when
    [ReadFrom] failed, the error returned; [None] when the loop is still
    waiting in [ReadFrom] after the last datagram. *)
Fixpoint ListenAndServe_loop (rwRequest : ReadWriteRequest)
  (arrivals : list inbound) : list action * option error :=
  match arrivals with
  | [] => ([], None)
  | RecvFails e :: _ => ([], Some e)
  | Recv dgram senderAddr :: later =>
      let buf := conn_Read (repeat x00 DatagramSize) dgram in
      let '(rwRequest, err) := ReadWriteRequest_UnmarshalBinary rwRequest buf in
      let act :=
        match err with
        | Some _ => WriteTo illegal_reply senderAddr
        | None => Go_handle senderAddr rwRequest
        end in
      let '(acts, ret) := ListenAndServe_loop rwRequest later in
      (act :: acts, ret)
  end.

Definition ListenAndServe (arrivals : list inbound)
  : list action * option error :=
  ListenAndServe_loop {| Filename := []; Mode := [] |} arrivals.

(* ================================================================= *)
(** ** Blocks and traces *)

(** The receiver of [Data.MarshalBinary] after [k] calls. *)
Fixpoint MarshalBinary_times (d : Data) (k : nat) : Data :=
  match k with
  | O => d
  | S k' => snd (Data_MarshalBinary (MarshalBinary_times d k'))
  end.

(** The block of index [j] (from 0) of the payload [p] on the wire: opcode
    Data, the number [j + 1] modulo 65536, the bytes [j * BlockSize] to
    [(j + 1) * BlockSize] of [p], as far as they exist. *)
Definition data_block (p : list byte) (j : nat) : list byte :=
  x00 :: x03 :: PutUint16 (uint16_wrap (Z.of_nat j + 1))
    ++ firstn BlockSize (skipn (j * BlockSize) p).

(** The blocks of [p] from the index [j] on, the first one written [n]
    times for the first [n] of [ns], and so on. *)
Fixpoint trace_from (p : list byte) (j : nat) (ns : list nat)
  : list (list byte) :=
  match ns with
  | [] => []
  | n :: ns' => repeat (data_block p j) n ++ trace_from p (S j) ns'
  end.

(** The arrivals that are datagrams, none a failure of [ReadFrom]. *)
Definition all_received (arrivals : list inbound) : Prop :=
  Forall (fun i => exists dgram from, i = Recv dgram from) arrivals.

(** Clients for the examples: an Error packet as second reply; a write that
    fails at the third attempt. *)
Definition error_client : client :=
  fun k data =>
    if (k =? 1)%nat
    then Reply (x00 :: x05 :: x00 :: x03 :: list_byte_of_string "full" ++ [x00])
    else ReadTimeout.

Definition unplugged_client : client :=
  fun k data => if (k =? 2)%nat then WriteFails else ReadTimeout.

(** A client that repeats the acknowledgment of the first block, padded
    to the size of the reply buffer, from the second attempt on. *)
Definition duplicate_ack_client_at_1 : client :=
  fun k data =>
    if (k =? 0)%nat then acking_client k data
    else Reply (x00 :: x04 :: x00 :: x01 :: repeat x00 512).

(** A client that sends the acknowledgment in full for the first block and
    only its first two bytes afterwards. *)
Definition lazy_client : client :=
  fun k data =>
    if (k =? 0)%nat then acking_client k data else Reply [x00; x04].

(* ================================================================= *)
(** ** Facts on bytes and words *)

Lemma byte_to_Z_range (b : byte) : (0 <= byte_to_Z b < 256)%Z.
Proof.
  unfold byte_to_Z. pose proof (Byte.to_N_bounded b). lia.
Qed.

Lemma byte_to_of_Z (z : Z) : byte_to_Z (byte_of_Z z) = (z mod 256)%Z.
Proof.
  unfold byte_to_Z, byte_of_Z.
  assert (Hr : (0 <= z mod 256 < 256)%Z) by (apply Z.mod_pos_bound; lia).
  destruct (Byte.of_N (Z.to_N (z mod 256))) as [b|] eqn:E.
  - apply Byte.to_of_N in E. rewrite E. lia.
  - apply Byte.of_N_None_iff in E. lia.
Qed.

Lemma byte_of_to_Z (b : byte) : byte_of_Z (byte_to_Z b) = b.
Proof.
  unfold byte_of_Z, byte_to_Z.
  pose proof (Byte.to_N_bounded b) as Hb.
  rewrite Z.mod_small by lia.
  rewrite N2Z.id, Byte.of_to_N. reflexivity.
Qed.

Lemma Uint16_value (b0 b1 : byte) :
  Uint16 b0 b1 = (byte_to_Z b0 * 256 + byte_to_Z b1)%Z.
Proof.
  unfold Uint16.
  pose proof (byte_to_Z_range b0) as H0. pose proof (byte_to_Z_range b1) as H1.
  rewrite Z.shiftl_mul_pow2 by lia. change (2 ^ 8)%Z with 256%Z.
  assert (Hland : Z.land (byte_to_Z b1) (byte_to_Z b0 * 256) = 0%Z).
  { apply Z.bits_inj'. intros n Hn. rewrite Z.land_spec, Z.bits_0.
    destruct (Z.ltb_spec n 8).
    - change 256%Z with (2 ^ 8)%Z.
      rewrite Z.mul_pow2_bits_low by lia. apply andb_false_r.
    - replace (Z.testbit (byte_to_Z b1) n) with false; [reflexivity|].
      symmetry. destruct (Z.eq_dec (byte_to_Z b1) 0) as [->|Hne];
        [apply Z.bits_0|].
      apply Z.bits_above_log2; [lia|].
      apply Z.log2_lt_pow2; [lia|].
      apply Z.lt_le_trans with (m := (2 ^ 8)%Z);
        [change (2 ^ 8)%Z with 256%Z; lia|].
      apply Z.pow_le_mono_r; lia. }
  pose proof (Z.add_lor_land (byte_to_Z b1) (byte_to_Z b0 * 256)) as Hadd.
  rewrite Hland in Hadd. lia.
Qed.

Lemma Uint16_range (b0 b1 : byte) : is_uint16 (Uint16 b0 b1).
Proof.
  rewrite Uint16_value. unfold is_uint16.
  pose proof (byte_to_Z_range b0). pose proof (byte_to_Z_range b1). lia.
Qed.

Lemma Uint16_PutUint16 (v : Z) :
  is_uint16 v ->
  Uint16 (byte_of_Z (Z.shiftr v 8)) (byte_of_Z v) = v.
Proof.
  unfold is_uint16. intros Hv.
  rewrite Uint16_value, !byte_to_of_Z.
  rewrite Z.shiftr_div_pow2 by lia. change (2 ^ 8)%Z with 256%Z.
  rewrite (Z.mod_small (v / 256) 256).
  - pose proof (Z.div_mod v 256). lia.
  - split; [apply Z.div_pos; lia | apply Z.div_lt_upper_bound; lia].
Qed.

(* ================================================================= *)
(** ** Acknowledgment: wire format and round trip *)

(** C10 -- For every Acknowledgment value [a] (its block number a 16-bit
    unsigned integer), encoding [a] yields exactly four bytes, the opcode 4
    followed by the block number, both big-endian, and decoding these bytes
    into any receiver succeeds and gives [a] back. *)
Theorem Acknowledgment_roundtrip (a a0 : Acknowledgment) :
  is_uint16 (ack_BlockNum a) ->
  exists hi lo : byte,
    Acknowledgment_MarshalBinary a = ([x00; x04; hi; lo], None) /\
    (byte_to_Z hi * 256 + byte_to_Z lo)%Z = ack_BlockNum a /\
    length (fst (Acknowledgment_MarshalBinary a)) = 4 /\
    Acknowledgment_UnmarshalBinary a0 (fst (Acknowledgment_MarshalBinary a))
      = (a, None).
Proof.
  intros Hr. destruct a as [v]. simpl in Hr.
  exists (byte_of_Z (Z.shiftr v 8)), (byte_of_Z v).
  assert (HU : Uint16 (byte_of_Z (Z.shiftr v 8)) (byte_of_Z v) = v)
    by (apply Uint16_PutUint16; exact Hr).
  split; [reflexivity|]. split; [rewrite <- Uint16_value; exact HU|].
  split; [reflexivity|].
  cbn -[Uint16 byte_of_Z Z.shiftr]. rewrite HU. reflexivity.
Qed.

Lemma Acknowledgment_roundtrip_witness :
  is_uint16 513 /\
  exists hi lo : byte,
    Acknowledgment_MarshalBinary {| ack_BlockNum := 513 |}
      = ([x00; x04; hi; lo], None) /\
    (byte_to_Z hi * 256 + byte_to_Z lo)%Z = 513%Z /\
    length (fst (Acknowledgment_MarshalBinary {| ack_BlockNum := 513 |})) = 4 /\
    Acknowledgment_UnmarshalBinary {| ack_BlockNum := 0 |}
      (fst (Acknowledgment_MarshalBinary {| ack_BlockNum := 513 |}))
      = ({| ack_BlockNum := 513 |}, None).
Proof.
  split; [unfold is_uint16; lia|].
  apply (Acknowledgment_roundtrip {| ack_BlockNum := 513 |} {| ack_BlockNum := 0 |}).
  unfold is_uint16; simpl; lia.
Defined.

(* ================================================================= *)
(** ** Readers and strings *)

Lemma byte_eqb_true (a b : byte) : byte_eqb a b = true <-> a = b.
Proof.
  unfold byte_eqb. split; [apply Byte.byte_dec_bl | apply Byte.byte_dec_lb].
Qed.

Lemma byte_eqb_false (a b : byte) : byte_eqb a b = false <-> a <> b.
Proof.
  split.
  - intros H E. apply byte_eqb_true in E. congruence.
  - intros H. destruct (byte_eqb a b) eqn:E; [|reflexivity].
    apply byte_eqb_true in E. contradiction.
Qed.

Lemma bytes_eqb_true (a b : list byte) : bytes_eqb a b = true <-> a = b.
Proof.
  unfold bytes_eqb. destruct (list_eq_dec Byte.byte_eq_dec a b); split;
    congruence.
Qed.

Lemma bytes_eqb_false (a b : list byte) : bytes_eqb a b = false <-> a <> b.
Proof.
  unfold bytes_eqb. destruct (list_eq_dec Byte.byte_eq_dec a b); split;
    congruence.
Qed.

(** [ReadString] stops at the first delimiter. *)
Lemma ReadString_found (delim : byte) (a rest : list byte) :
  ~ In delim a ->
  ReadString delim (a ++ delim :: rest) = (a ++ [delim], rest, None).
Proof.
  induction a as [|b a IH]; intros Hn; simpl.
  - replace (byte_eqb delim delim) with true; [reflexivity|].
    symmetry. apply byte_eqb_true. reflexivity.
  - assert (Hb : byte_eqb b delim = false).
    { apply byte_eqb_false. intros ->. apply Hn. left. reflexivity. }
    rewrite Hb, IH; [reflexivity|].
    intros Hin. apply Hn. right. exact Hin.
Qed.

(** When [ReadString] reports no error, a delimiter was there. *)
Lemma ReadString_ok_inv (delim : byte) (l line rest : list byte) :
  ReadString delim l = (line, rest, None) ->
  exists a, l = a ++ delim :: rest /\ line = a ++ [delim] /\ ~ In delim a.
Proof.
  revert line rest. induction l as [|b l IH]; intros line rest; simpl.
  - discriminate.
  - destruct (byte_eqb b delim) eqn:Eb.
    + intros H. inversion H; subst. apply byte_eqb_true in Eb. subst b.
      exists []. simpl. auto.
    + destruct (ReadString delim l) as [[line' rest'] err'] eqn:ER.
      intros H. inversion H; subst.
      destruct (IH line' rest eq_refl) as (a & -> & -> & Hn).
      exists (b :: a). simpl. repeat split; auto.
      intros [->|Hin]; [|contradiction].
      apply byte_eqb_false in Eb. congruence.
Qed.

Lemma TrimRight_NUL_terminated (a : gostring) :
  ~ In x00 a -> TrimRight_NUL (a ++ [x00]) = a.
Proof.
  induction a as [|b a IH]; intros Hn; simpl.
  - reflexivity.
  - rewrite IH by (intros Hin; apply Hn; right; exact Hin).
    destruct a as [|c a']; [|reflexivity].
    replace (byte_eqb b x00) with false; [reflexivity|].
    symmetry. apply byte_eqb_false. intros ->. apply Hn. left. reflexivity.
Qed.

Lemma lower_byte_NUL (b : byte) : lower_byte b = x00 -> b = x00.
Proof.
  unfold lower_byte.
  destruct ((65 <=? byte_to_Z b) && (byte_to_Z b <=? 90))%Z eqn:E;
    [|auto].
  intros H. apply andb_prop in E. destruct E as [E1 E2].
  apply Z.leb_le in E1. apply Z.leb_le in E2.
  assert (HZ : byte_to_Z (byte_of_Z (byte_to_Z b + 32)) = 0%Z)
    by (rewrite H; reflexivity).
  rewrite byte_to_of_Z, Z.mod_small in HZ by lia. lia.
Qed.

Lemma ToLower_octet_no_NUL (m : gostring) : ToLower m = octet -> ~ In x00 m.
Proof.
  intros H Hin. apply (in_map lower_byte) in Hin.
  change (map lower_byte m) with (ToLower m) in Hin. rewrite H in Hin.
  change (lower_byte x00) with x00 in Hin. simpl in Hin.
  repeat (destruct Hin as [Hin|Hin]; [discriminate|]). exact Hin.
Qed.

(** The two opcodes of a request, on the wire. *)
Lemma request_opcode (b0 b1 : byte) :
  (negb (Uint16 b0 b1 =? ReadOp)%Z && negb (Uint16 b0 b1 =? WriteOp)%Z = false)
  <-> b0 = x00 /\ (b1 = x01 \/ b1 = x02).
Proof.
  rewrite Uint16_value. unfold ReadOp, WriteOp.
  pose proof (byte_to_Z_range b0) as H0. pose proof (byte_to_Z_range b1) as H1.
  split.
  - intros H. apply andb_false_iff in H.
    assert (Hv : (byte_to_Z b0 * 256 + byte_to_Z b1 = 1 \/
                  byte_to_Z b0 * 256 + byte_to_Z b1 = 2)%Z).
    { destruct H as [H|H]; apply negb_false_iff, Z.eqb_eq in H; auto. }
    assert (Hb0 : byte_to_Z b0 = 0%Z) by lia.
    split.
    + rewrite <- (byte_of_to_Z b0), Hb0. reflexivity.
    + destruct Hv as [Hv|Hv]; [left|right];
        rewrite <- (byte_of_to_Z b1);
        [replace (byte_to_Z b1) with 1%Z by lia
        |replace (byte_to_Z b1) with 2%Z by lia]; reflexivity.
  - intros [-> [->| ->]]; reflexivity.
Qed.

(* ================================================================= *)
(** ** Decoding a request *)

(** The requests that [ReadWriteRequest.UnmarshalBinary] accepts: opcode
    Read or Write, then a filename that is not empty and a mode that is
    [octet] in any letter case, each closed by a zero byte. *)
Lemma decodeRequest_accepts (r0 : ReadWriteRequest) (op : byte)
  (fname mode rest : list byte) :
  op = x01 \/ op = x02 ->
  fname <> [] -> ~ In x00 fname -> ToLower mode = octet ->
  ReadWriteRequest_UnmarshalBinary r0
    (x00 :: op :: fname ++ x00 :: mode ++ x00 :: rest)
  = ({| Filename := fname; Mode := octet |}, None).
Proof.
  intros Hop Hne Hf Hm.
  pose proof (ToLower_octet_no_NUL _ Hm) as Hmn.
  unfold ReadWriteRequest_UnmarshalBinary.
  cbn [binary_Read].
  replace (negb (Uint16 x00 op =? ReadOp)%Z && negb (Uint16 x00 op =? WriteOp)%Z)
    with false by (symmetry; apply request_opcode; auto).
  rewrite ReadString_found by exact Hf.
  cbn [Filename Mode]. rewrite TrimRight_NUL_terminated by exact Hf.
  destruct fname as [|f0 fname']; [congruence|].
  cbn [length Nat.eqb].
  rewrite ReadString_found by exact Hmn.
  cbn [Filename Mode]. rewrite TrimRight_NUL_terminated by exact Hmn.
  rewrite Hm.
  replace (bytes_eqb octet octet) with true
    by (symmetry; apply bytes_eqb_true; reflexivity).
  reflexivity.
Qed.

Lemma decodeRequest_accepted_inv (r0 r : ReadWriteRequest) (buf : list byte) :
  ReadWriteRequest_UnmarshalBinary r0 buf = (r, None) ->
  exists op fname mode rest,
    buf = x00 :: op :: fname ++ x00 :: mode ++ x00 :: rest /\
    (op = x01 \/ op = x02) /\
    fname <> [] /\ ~ In x00 fname /\ ~ In x00 mode /\ ToLower mode = octet.
Proof.
  unfold ReadWriteRequest_UnmarshalBinary.
  destruct buf as [|b0 [|b1 buf]]; cbn [binary_Read]; try discriminate.
  destruct (negb (Uint16 b0 b1 =? ReadOp)%Z && negb (Uint16 b0 b1 =? WriteOp)%Z)
    eqn:Eop; [discriminate|].
  apply request_opcode in Eop. destruct Eop as [-> Hop].
  destruct (ReadString x00 buf) as [[fline rest1] [e1|]] eqn:E1;
    [discriminate|].
  apply ReadString_ok_inv in E1. destruct E1 as (fname & -> & -> & Hf).
  cbn [Filename Mode]. rewrite TrimRight_NUL_terminated by exact Hf.
  destruct (length fname =? 0)%nat eqn:El; [discriminate|].
  destruct (ReadString x00 rest1) as [[mline rest2] [e2|]] eqn:E2;
    [discriminate|].
  apply ReadString_ok_inv in E2. destruct E2 as (mode & -> & -> & Hm).
  cbn [Filename Mode]. rewrite TrimRight_NUL_terminated by exact Hm.
  destruct (bytes_eqb (ToLower mode) octet) eqn:Eo; cbn [negb];
    [|discriminate].
  intros _. apply bytes_eqb_true in Eo.
  exists b1, fname, mode, rest2. repeat split; auto.
  intros ->. discriminate.
Qed.




(* ================================================================= *)
(** ** Request round trip *)

Lemma ReadWriteRequest_MarshalBinary_bytes (r : ReadWriteRequest) :
  ReadWriteRequest_MarshalBinary r
  = (x00 :: x01 :: Filename r ++ x00 ::
       (if negb (bytes_eqb (Mode r) []) then Mode r else octet) ++ [x00],
     None).
Proof.
  unfold ReadWriteRequest_MarshalBinary, binary_Write, WriteString, WriteByte.
  cbn [app]. change (PutUint16 ReadOp) with [x00; x01]. cbn [app].
  rewrite <- !app_assoc. reflexivity.
Qed.

(** C4 -- For every request whose filename is not empty and holds no zero
    byte, and whose mode is [octet] in any letter case or is unset, the
    encoder succeeds and decoding its bytes (into any receiver) succeeds and
    gives the same filename with the mode [octet], that is the mode of the
    request lowercased, or the default it was encoded with. *)
Theorem request_roundtrip (r r0 : ReadWriteRequest) :
  Filename r <> [] ->
  ~ In x00 (Filename r) ->
  Mode r = [] \/ ToLower (Mode r) = octet ->
  snd (ReadWriteRequest_MarshalBinary r) = None /\
  ReadWriteRequest_UnmarshalBinary r0 (fst (ReadWriteRequest_MarshalBinary r))
  = ({| Filename := Filename r; Mode := octet |}, None).
Proof.
  intros Hne Hf Hm. rewrite ReadWriteRequest_MarshalBinary_bytes.
  split; [reflexivity|]. cbn [fst].
  apply decodeRequest_accepts; auto.
  destruct (bytes_eqb (Mode r) []) eqn:E; cbn [negb].
  - reflexivity.
  - destruct Hm as [Hm|Hm]; [|exact Hm].
    apply bytes_eqb_false in E. contradiction.
Qed.

Lemma request_roundtrip_witness :
  let r := {| Filename := list_byte_of_string "boot.img";
              Mode := list_byte_of_string "OcTeT" |} in
  snd (ReadWriteRequest_MarshalBinary r) = None /\
  ReadWriteRequest_UnmarshalBinary {| Filename := []; Mode := [] |}
    (fst (ReadWriteRequest_MarshalBinary r))
  = ({| Filename := list_byte_of_string "boot.img"; Mode := octet |}, None).
Proof.
  apply (request_roundtrip
           {| Filename := list_byte_of_string "boot.img";
              Mode := list_byte_of_string "OcTeT" |}
           {| Filename := []; Mode := [] |}).
  - simpl. discriminate.
  - simpl. intros H.
    repeat (destruct H as [H|H]; [discriminate|]). exact H.
  - right. reflexivity.
Defined.

(** C4, as first stated, fails: a filename that is not empty may hold a zero
    byte; the decoder then cuts it there and takes what follows for the
    mode.  Here the filename is [a], a zero byte, [b], the mode [octet]. *)
Lemma request_roundtrip_NUL_filename :
  let r := {| Filename := [x61; x00; x62]; Mode := octet |} in
  Filename r <> [] /\ ToLower (Mode r) = octet /\
  ReadWriteRequest_UnmarshalBinary {| Filename := []; Mode := [] |}
    (fst (ReadWriteRequest_MarshalBinary r))
  = ({| Filename := [x61]; Mode := [x62] |}, Some unsupported_mode).
Proof.
  cbv zeta. split; [discriminate|]. split; reflexivity.
Qed.

(* ================================================================= *)
(** ** Decoding data packets *)

Lemma Data_UnmarshalBinary_short (d : Data) (l : list byte) :
  length l < 4 ->
  Data_UnmarshalBinary d (slice_of l) = Panics \/
  Data_UnmarshalBinary d (slice_of l) = Returns (d, Some invalid_data).
Proof.
  intros Hl. unfold Data_UnmarshalBinary, slice_range, slice_from, slice_of, cap.
  cbn [backing len].
  destruct l as [|b0 [|b1 [|b2 [|b3 l]]]]; cbn [length] in *; try lia;
    cbn [Nat.leb andb]; auto;
    cbn [contents backing len skipn firstn binary_Read Nat.sub];
    destruct (negb (Uint16 b0 b1 =? DataOp)%Z); auto.
Qed.

(** C9 -- [Data.UnmarshalBinary] is not total.  On the empty buffer the
    slice expression [buf[:2]] panics; on the two bytes of the opcode Data
    alone [buf[2:4]] panics; on the opcode and one more byte as well (each
    of these is a slice as a literal or a read gives it, its length within
    its capacity).  The decoder
    of acknowledgments, which reads through a [bytes.Reader], returns an
    error on the same buffers. *)
Theorem Data_UnmarshalBinary_panics (d : Data) (a : Acknowledgment) :
  well_formed (slice_of []) /\ well_formed (slice_of [x00; x03]) /\
  Data_UnmarshalBinary d (slice_of []) = Panics /\
  Data_UnmarshalBinary d (slice_of [x00; x03]) = Panics /\
  Data_UnmarshalBinary d (slice_of [x00; x03; x00]) = Panics /\
  Acknowledgment_UnmarshalBinary a [] = (a, Some EOF) /\
  Acknowledgment_UnmarshalBinary a [x00; x04] = (a, Some EOF) /\
  Acknowledgment_UnmarshalBinary a [x00; x04; x00] = (a, Some ErrUnexpectedEOF).
Proof.
  split; [apply le_n|]. split; [apply le_n|]. repeat split.
Qed.

(* ================================================================= *)
(** ** The dispatcher and requests it cannot decode *)

(** Neither the error nor the value decoded on success depends on the
    receiver: what an earlier datagram left in [rwRequest] has no effect. *)
Lemma decodeRequest_receiver (r1 r2 : ReadWriteRequest) (buf : list byte) :
  snd (ReadWriteRequest_UnmarshalBinary r1 buf)
  = snd (ReadWriteRequest_UnmarshalBinary r2 buf) /\
  (snd (ReadWriteRequest_UnmarshalBinary r1 buf) = None ->
   fst (ReadWriteRequest_UnmarshalBinary r1 buf)
   = fst (ReadWriteRequest_UnmarshalBinary r2 buf)).
Proof.
  unfold ReadWriteRequest_UnmarshalBinary.
  destruct (binary_Read buf) as [reader [code|e]];
    [|split; [reflexivity|discriminate]].
  destruct (negb (code =? ReadOp)%Z && negb (code =? WriteOp)%Z);
    [split; [reflexivity|discriminate]|].
  destruct (ReadString x00 reader) as [[fname reader1] [e1|]];
    [split; [reflexivity|discriminate]|].
  cbn [Filename Mode].
  destruct (length (TrimRight_NUL fname) =? 0)%nat;
    [split; [reflexivity|discriminate]|].
  destruct (ReadString x00 reader1) as [[mode reader2] [e2|]];
    [split; [reflexivity|discriminate]|].
  cbn [Filename Mode].
  destruct (negb (bytes_eqb (ToLower (TrimRight_NUL mode)) octet));
    split; reflexivity || discriminate.
Qed.

Lemma ListenAndServe_loop_receiver (r1 r2 : ReadWriteRequest)
  (arrivals : list inbound) :
  ListenAndServe_loop r1 arrivals = ListenAndServe_loop r2 arrivals.
Proof.
  revert r1 r2. induction arrivals as [|[e|dgram from] later IH]; intros r1 r2;
    cbn [ListenAndServe_loop]; try reflexivity.
  pose proof (decodeRequest_receiver r1 r2
                (conn_Read (repeat x00 DatagramSize) dgram)) as [He Hv].
  destruct (ReadWriteRequest_UnmarshalBinary r1 _) as [r1' err1].
  destruct (ReadWriteRequest_UnmarshalBinary r2 _) as [r2' err2].
  cbn [fst snd] in He, Hv. subst err2.
  rewrite (IH r1' r2').
  destruct err1; [reflexivity|]. rewrite (Hv eq_refl). reflexivity.
Qed.

(** For a datagram that does not decode as a request the dispatcher writes
    one datagram to the sender, the three bytes of [illegal_reply], and
    serves the datagrams that follow as if the bad one had not come. *)
Lemma ListenAndServe_bad_request (dgram : list byte) (from : Addr)
  (later : list inbound) :
  snd (ReadWriteRequest_UnmarshalBinary {| Filename := []; Mode := [] |}
         (conn_Read (repeat x00 DatagramSize) dgram)) <> None ->
  ListenAndServe (Recv dgram from :: later)
  = (WriteTo illegal_reply from :: fst (ListenAndServe later),
     snd (ListenAndServe later)).
Proof.
  unfold ListenAndServe. cbn [ListenAndServe_loop]. intros H.
  destruct (ReadWriteRequest_UnmarshalBinary _ _) as [r' [e|]];
    [|contradiction H; reflexivity].
  rewrite (ListenAndServe_loop_receiver r' {| Filename := []; Mode := [] |}).
  destruct (ListenAndServe_loop _ later). reflexivity.
Qed.

(** C2 -- On three bytes of garbage the dispatcher answers the sender once
    and goes on, but the datagram it writes is [05 04 00]: the opcode and
    the code are cut to one byte each.  It does not decode as an Error
    packet (the opcode read is 0x0504), and it is not what [Err.MarshalBinary]
    gives for the code IllegalOperation and an empty message, which is
    [00 05 00 04 00]. *)
Theorem ListenAndServe_illegal_reply (e0 : Err) (later : list inbound) :
  ListenAndServe (Recv [x01; x02; x03] "client" :: later)
  = (WriteTo [x05; x04; x00] "client" :: fst (ListenAndServe later),
     snd (ListenAndServe later)) /\
  Err_UnmarshalBinary e0 [x05; x04; x00] = (e0, Some invalid_error) /\
  Err_MarshalBinary {| Code := ErrIllegalOp; Message := [] |}
  = ([x00; x05; x00; x04; x00], None) /\
  Err_UnmarshalBinary e0 [x00; x05; x00; x04; x00]
  = ({| Code := ErrIllegalOp; Message := [] |}, None).
Proof.
  split; [|repeat split].
  apply (ListenAndServe_bad_request [x01; x02; x03] "client" later).
  vm_compute. discriminate.
Qed.

(* ================================================================= *)
(** ** Encoding data packets *)

Lemma uint16_wrap_range (z : Z) : is_uint16 (uint16_wrap z).
Proof.
  unfold is_uint16, uint16_wrap. apply Z.mod_pos_bound. lia.
Qed.

(** One call of [Data.MarshalBinary]: the counter goes up by one, modulo
    65536, before it is written; up to [BlockSize] bytes leave the reader. *)
Lemma Data_MarshalBinary_spec (d : Data) :
  Data_MarshalBinary d
  = ((x00 :: x03 :: PutUint16 (uint16_wrap (BlockNum d + 1))
        ++ firstn BlockSize (Payload d), None),
     {| BlockNum := uint16_wrap (BlockNum d + 1);
        Payload := skipn BlockSize (Payload d) |}).
Proof.
  unfold Data_MarshalBinary, binary_Write, io_CopyN.
  cbn [app BlockNum Payload]. change (PutUint16 DataOp) with [x00; x03].
  cbn [app].
  destruct (length (firstn BlockSize (Payload d)) <? BlockSize)%nat;
    reflexivity.
Qed.

Lemma block_number_data (bn : Z) (chunk : list byte) :
  is_uint16 bn ->
  block_number (x00 :: x03 :: PutUint16 bn ++ chunk) = bn.
Proof.
  intros H. unfold block_number, PutUint16. cbn [skipn app opcode_of].
  apply Uint16_PutUint16. exact H.
Qed.

Lemma payload_of_data (bn : Z) (chunk : list byte) :
  payload_of (x00 :: x03 :: PutUint16 bn ++ chunk) = chunk.
Proof. reflexivity. Qed.

Lemma length_data (bn : Z) (chunk : list byte) :
  length (x00 :: x03 :: PutUint16 bn ++ chunk) = 4 + length chunk.
Proof. reflexivity. Qed.

(** A datagram of four bytes or more with the opcode Data is decoded by
    [Data.UnmarshalBinary] to its block number and payload. *)
Lemma Data_UnmarshalBinary_data (d : Data) (bn : Z) (chunk : list byte) :
  is_uint16 bn ->
  Data_UnmarshalBinary d (slice_of (x00 :: x03 :: PutUint16 bn ++ chunk))
  = Returns ({| BlockNum := bn; Payload := chunk |}, None).
Proof.
  intros H. unfold Data_UnmarshalBinary, slice_range, slice_from, slice_of, cap.
  unfold PutUint16. cbn [app backing len length Nat.leb andb].
  cbn [contents len backing Nat.sub skipn firstn binary_Read].
  change (negb (Uint16 x00 x03 =? DataOp)%Z) with false. cbv iota.
  cbn [BlockNum Payload]. rewrite Uint16_PutUint16 by exact H.
  rewrite Nat.sub_0_r, firstn_all. reflexivity.
Qed.

(* ================================================================= *)
(** ** The retry loop *)

Lemma conn_Read_length (buf dgram : list byte) :
  length (conn_Read buf dgram) = length buf.
Proof.
  unfold conn_Read. rewrite length_app, length_firstn, length_skipn. lia.
Qed.

Section Session_facts.

Variable s : TFTPServer.
Variable env : client.

(** One turn of [RETRIES] is one attempt: it writes [data] once, unless the
    write itself failed, and leaves the reply buffer at its length. *)
Lemma RETRIES_body_inv (data : list byte) (dataM : Data) (v v1 : locals)
  (c : control) (out1 : list (list byte)) :
  RETRIES_body env data dataM v = (c, v1, out1) ->
  v_clock v1 = S (v_clock v) /\
  length (v_buf v1) = length (v_buf v) /\
  ((out1 = [data] /\ v_n v1 = length data) \/
   (out1 = [] /\ c = return_ WriteError /\
    env (v_clock v) data = WriteFails)).
Proof.
  unfold RETRIES_body.
  destruct (env (v_clock v) data) as [| | |dgram] eqn:Eev.
  1-3: intros H; inversion H; subst; cbn; auto 10.
  cbn [v_code v_buf v_ackM v_errM v_n v_clock after_Write set_buf set_code].
  destruct (opcode_of (conn_Read (v_buf v) dgram) =? AcknowledgmentOp)%Z.
  - destruct (Acknowledgment_UnmarshalBinary _ _) as [ackM [e|]].
    + intros H; inversion H; subst; cbn.
      rewrite conn_Read_length. auto.
    + cbn [v_ackM set_ackM].
      destruct (ack_BlockNum ackM =? BlockNum dataM)%Z;
        intros H; inversion H; subst; cbn; rewrite conn_Read_length; auto.
  - destruct (opcode_of (conn_Read (v_buf v) dgram) =? ErrorOp)%Z.
    + destruct (Err_UnmarshalBinary _ _) as [errM [e|]];
        intros H; inversion H; subst; cbn; rewrite conn_Read_length; auto.
    + intros H; inversion H; subst; cbn; rewrite conn_Read_length; auto.
Qed.

(** The loop [RETRIES] writes nothing but [data], at most once per turn; when
    it runs to its end it has written [data] at every turn; when it is left
    for the next block, the last write went through and set [n]. *)
Lemma RETRIES_inv (rem : nat) (data : list byte) (dataM : Data) :
  forall (v v' : locals) (x : loop_exit) (out : list (list byte)),
  RETRIES env rem data dataM v = (x, v', out) ->
  out = repeat data (length out) /\
  length out <= rem /\
  (x = LoopEnd -> length out = rem) /\
  (x = ContinueNext -> v_n v' = length data /\ 1 <= length out) /\
  length (v_buf v') = length (v_buf v) /\
  v_clock v <= v_clock v'.
Proof.
  induction rem as [|rem IH]; intros v v' x out; cbn [RETRIES].
  - intros H; inversion H; subst. cbn. repeat split; auto; discriminate.
  - destruct (RETRIES_body env data dataM v) as [[c v1] out1] eqn:EB.
    apply RETRIES_body_inv in EB. destruct EB as (Hc & Hb & Ho).
    destruct c as [| |why].
    + destruct (RETRIES env rem data dataM v1) as [[x2 v2] out2] eqn:ER.
      apply IH in ER. destruct ER as (Hrep & Hle & Hend & Hnext & Hb2 & Hc2).
      intros H; inversion H; subst.
      destruct Ho as [[-> Hn]|[_ [Hw _]]]; [|discriminate].
      cbn [app length repeat]. rewrite <- Hrep.
      split; [reflexivity|]. split; [lia|].
      split; [intros E; rewrite (Hend E); reflexivity|].
      split; [intros E; destruct (Hnext E); split; [assumption|lia]|].
      split; [congruence|lia].
    + intros H; inversion H; subst.
      destruct Ho as [[-> Hn]|[_ [Hw _]]]; [|discriminate].
      cbn. repeat split; auto; try lia; discriminate.
    + intros H; inversion H; subst.
      destruct Ho as [[-> Hn]|[-> [Hw _]]]; cbn;
        repeat split; auto; try lia; discriminate.
Qed.

(* ================================================================= *)
(** ** Termination of a session *)

Lemma NEXT_PACKET_fuel (fuel : nat) :
  forall (dataM : Data) (v : locals),
  (v_n v = DatagramSize -> length (Payload dataM) / BlockSize < fuel) ->
  fst (fst (NEXT_PACKET s env fuel dataM v)) <> OutOfFuel.
Proof.
  induction fuel as [|fuel IH]; intros dataM v Hf;
    cbn [NEXT_PACKET];
    destruct (v_n v =? DatagramSize)%nat eqn:En; try (cbn; discriminate).
  - apply Nat.eqb_eq in En. specialize (Hf En). lia.
  - apply Nat.eqb_eq in En. specialize (Hf En).
    rewrite Data_MarshalBinary_spec.
    set (data := x00 :: x03 :: _).
    set (dataM' := {| BlockNum := _; Payload := _ |}).
    destruct (RETRIES env (retries s) data dataM' v) as [[x v'] out] eqn:ER.
    destruct x as [|why|]; try (cbn; discriminate).
    apply RETRIES_inv in ER. destruct ER as (_ & _ & _ & Hnext & _).
    destruct (Hnext eq_refl) as [Hn _].
    specialize (IH dataM' v').
    destruct (NEXT_PACKET s env fuel dataM' v') as [[o d2] out2].
    cbn [fst] in *. apply IH. intros Hn'.
    rewrite Hn' in Hn. subst data. rewrite length_data in Hn.
    assert (Hlen : length (Payload dataM) >= BlockSize).
    { rewrite length_firstn in Hn. unfold BlockSize, DatagramSize in *.
      lia. }
    subst dataM'. cbn [Payload]. rewrite length_skipn.
    assert (Hd : length (Payload dataM) / BlockSize
                 = S ((length (Payload dataM) - BlockSize) / BlockSize)).
    { replace (length (Payload dataM))
        with ((length (Payload dataM) - BlockSize) + 1 * BlockSize) at 1
        by lia.
      rewrite Nat.div_add by (unfold BlockSize, DatagramSize; lia). lia. }
    rewrite Hd in Hf. lia.
Qed.

(** A session always ends: [handle] never runs out of fuel, whatever the
    payload and whatever the client and the network do. *)
Lemma handle_terminates :
  fst (fst (handle s env)) <> OutOfFuel.
Proof.
  unfold handle. apply NEXT_PACKET_fuel. intros _. cbn [handle_dataM Payload].
  lia.
Qed.

End Session_facts.

(* ================================================================= *)
(** ** The sequence of block numbers *)

Lemma squash_hd (l : list Z) : hd_error (squash l) = hd_error l.
Proof.
  induction l as [|x t IH]; [reflexivity|].
  cbn [squash]. destruct t as [|y t']; [reflexivity|].
  destruct (x =? y)%Z eqn:E; [|reflexivity].
  apply Z.eqb_eq in E. subst y. exact IH.
Qed.

Lemma squash_cons2 (x y : Z) (t : list Z) :
  squash (x :: y :: t)
  = if (x =? y)%Z then squash (y :: t) else x :: squash (y :: t).
Proof. reflexivity. Qed.

Lemma squash_repeat_app (x : Z) (k : nat) (l : list Z) :
  hd_error l <> Some x ->
  squash (repeat x (S k) ++ l) = x :: squash l.
Proof.
  intros Hhd. induction k as [|k IH].
  - cbn [repeat app squash]. destruct l as [|y t]; [reflexivity|].
    destruct (x =? y)%Z eqn:E; [|reflexivity].
    apply Z.eqb_eq in E. subst y. contradiction Hhd. reflexivity.
  - change (repeat x (S (S k)) ++ l) with (x :: x :: (repeat x k ++ l)).
    rewrite squash_cons2, Z.eqb_refl. exact IH.
Qed.

Lemma uint16_wrap_succ (c : Z) :
  uint16_wrap (uint16_wrap c + 1) = uint16_wrap (c + 1).
Proof.
  unfold uint16_wrap. apply Zplus_mod_idemp_l.
Qed.

Lemma uint16_wrap_succ_neq (c : Z) : uint16_wrap (c + 1) <> uint16_wrap c.
Proof.
  unfold uint16_wrap. Z.div_mod_to_equations. lia.
Qed.

Section Block_numbers.

Variable s : TFTPServer.
Variable env : client.

Lemma NEXT_PACKET_sends_Data (fuel : nat) :
  forall (dataM : Data) (v : locals),
  Forall Data_datagram (snd (NEXT_PACKET s env fuel dataM v)).
Proof.
  induction fuel as [|fuel IH]; intros dataM v; cbn [NEXT_PACKET];
    destruct (v_n v =? DatagramSize)%nat; try (cbn; constructor).
  rewrite Data_MarshalBinary_spec.
  set (data := x00 :: x03 :: _).
  set (dataM' := {| BlockNum := _; Payload := _ |}).
  assert (Hd : Data_datagram data).
  { exists (uint16_wrap (BlockNum dataM + 1)), (firstn BlockSize (Payload dataM)).
    split; [apply uint16_wrap_range|].
    split; [apply firstn_le_length|reflexivity]. }
  destruct (RETRIES env (retries s) data dataM' v) as [[x v'] out] eqn:ER.
  apply RETRIES_inv in ER. destruct ER as (Hrep & _).
  assert (Hout : Forall Data_datagram out).
  { rewrite Hrep. apply Forall_forall. intros y Hy.
    apply repeat_spec in Hy. subst y. exact Hd. }
  destruct x as [|why|]; cbn [snd]; try exact Hout.
  specialize (IH dataM' v').
  destruct (NEXT_PACKET s env fuel dataM' v') as [[o d2] out2].
  cbn [snd] in *. apply Forall_app. split; assumption.
Qed.

(** Once [c] blocks have been encoded the counter is [c] modulo 65536, and
    what is written from there on carries, repetitions apart, the numbers
    [c + 1], [c + 2], ... modulo 65536, one after the other. *)
Lemma NEXT_PACKET_block_numbers (fuel : nat) :
  forall (c : Z) (dataM : Data) (v : locals),
  BlockNum dataM = uint16_wrap c ->
  exists m,
    squash (map block_number (snd (NEXT_PACKET s env fuel dataM v)))
    = map (fun j => uint16_wrap (c + 1 + Z.of_nat j)) (seq 0 m).
Proof.
  induction fuel as [|fuel IH]; intros c dataM v Hc; cbn [NEXT_PACKET];
    destruct (v_n v =? DatagramSize)%nat; try (exists 0; reflexivity).
  rewrite Data_MarshalBinary_spec.
  rewrite Hc, uint16_wrap_succ.
  set (b := uint16_wrap (c + 1)).
  set (data := x00 :: x03 :: _).
  set (dataM' := {| BlockNum := _; Payload := _ |}).
  assert (Hbn : block_number data = b)
    by (apply block_number_data, uint16_wrap_range).
  destruct (RETRIES env (retries s) data dataM' v) as [[x v'] out] eqn:ER.
  apply RETRIES_inv in ER. destruct ER as (Hrep & _ & _ & Hnext & _).
  assert (Hbns : map block_number out = repeat b (length out)).
  { rewrite Hrep at 1. rewrite map_repeat, Hbn. reflexivity. }
  assert (Hstop : exists m, squash (map block_number out)
                    = map (fun j => uint16_wrap (c + 1 + Z.of_nat j)) (seq 0 m)).
  { rewrite Hbns. destruct (length out) as [|k].
    - exists 0. reflexivity.
    - exists 1. rewrite <- (app_nil_r (repeat b (S k))).
      rewrite squash_repeat_app by discriminate.
      cbn. rewrite Z.add_0_r. reflexivity. }
  destruct x as [|why|]; cbn [snd]; try exact Hstop.
  destruct (Hnext eq_refl) as [_ Hk].
  destruct (IH (c + 1)%Z dataM' v' eq_refl) as [m Hm].
  destruct (NEXT_PACKET s env fuel dataM' v') as [[o d2] out2].
  cbn [snd] in *. exists (S m).
  rewrite map_app, Hbns.
  destruct (length out) as [|k]; [lia|].
  rewrite squash_repeat_app.
  - rewrite Hm. cbn [seq map]. rewrite Z.add_0_r. f_equal.
    rewrite <- seq_shift, map_map. apply map_ext. intros j.
    f_equal. lia.
  - rewrite <- squash_hd, Hm. destruct m as [|m']; [discriminate|].
    cbn [seq map hd_error]. rewrite Z.add_0_r. intros E.
    injection E as E. revert E. apply uint16_wrap_succ_neq.
Qed.

(** C8 -- In every session, whatever the client does: the counter starts at
    0; each call of [Data.MarshalBinary] raises it by one modulo 65536 and
    writes the raised value behind the opcode; every datagram sent is such a
    Data packet, decoded by [Data.UnmarshalBinary] to the block number and
    payload it carries; and the block numbers sent are, repetitions of the
    same block apart, 1, 2, ..., m modulo 65536, in this order, with no gap. *)
Theorem block_numbers_sequence :
  BlockNum (handle_dataM s) = 0%Z /\
  (forall d : Data,
     BlockNum (snd (Data_MarshalBinary d)) = uint16_wrap (BlockNum d + 1) /\
     block_number (fst (fst (Data_MarshalBinary d)))
     = uint16_wrap (BlockNum d + 1)) /\
  Forall (fun dgram =>
            forall d : Data,
              Data_UnmarshalBinary d (slice_of dgram)
              = Returns ({| BlockNum := block_number dgram;
                            Payload := payload_of dgram |}, None))
         (sent (handle s env)) /\
  exists m,
    squash (map block_number (sent (handle s env)))
    = map (fun j => uint16_wrap (Z.of_nat j + 1)) (seq 0 m).
Proof.
  split; [reflexivity|]. split; [|split].
  - intros d. rewrite Data_MarshalBinary_spec. cbn [fst snd BlockNum].
    split; [reflexivity|]. apply block_number_data, uint16_wrap_range.
  - unfold sent, handle.
    eapply Forall_impl; [|apply NEXT_PACKET_sends_Data].
    intros dgram (bn & chunk & Hbn & _ & ->) d.
    rewrite block_number_data by exact Hbn. rewrite payload_of_data.
    apply Data_UnmarshalBinary_data. exact Hbn.
  - unfold sent, handle.
    destruct (NEXT_PACKET_block_numbers
                (S (length (payload s) / BlockSize)) 0
                (handle_dataM s) handle_locals eq_refl) as [m Hm].
    exists m. rewrite Hm. apply map_ext. intros j. f_equal. lia.
Qed.

End Block_numbers.

(* ================================================================= *)
(** ** Replies *)

Lemma conn_Read_front (buf dgram : list byte) :
  length dgram <= length buf ->
  conn_Read buf dgram = dgram ++ skipn (length dgram) buf.
Proof.
  intros H. unfold conn_Read. rewrite firstn_all2 by exact H. reflexivity.
Qed.

Lemma Acknowledgment_MarshalBinary_bytes (a : Acknowledgment) :
  Acknowledgment_MarshalBinary a
  = (x00 :: x04 :: PutUint16 (ack_BlockNum a), None).
Proof. reflexivity. Qed.

Lemma Acknowledgment_UnmarshalBinary_ack (a0 : Acknowledgment) (bn : Z)
  (rest : list byte) :
  is_uint16 bn ->
  Acknowledgment_UnmarshalBinary a0 (x00 :: x04 :: PutUint16 bn ++ rest)
  = ({| ack_BlockNum := bn |}, None).
Proof.
  intros H. unfold Acknowledgment_UnmarshalBinary, PutUint16.
  cbn [app binary_Read].
  change (negb (Uint16 x00 x04 =? AcknowledgmentOp)%Z) with false. cbv iota.
  rewrite Uint16_PutUint16 by exact H. reflexivity.
Qed.

(** A buffer that decodes as an acknowledgment starts with its opcode. *)
Lemma Acknowledgment_decoded_opcode (a0 a : Acknowledgment) (buf : list byte) :
  Acknowledgment_UnmarshalBinary a0 buf = (a, None) ->
  opcode_of buf = AcknowledgmentOp.
Proof.
  unfold Acknowledgment_UnmarshalBinary.
  destruct buf as [|b0 [|b1 rest]]; cbn [binary_Read opcode_of];
    try discriminate.
  destruct (Uint16 b0 b1 =? AcknowledgmentOp)%Z eqn:E; cbn [negb];
    [|discriminate].
  intros _. apply Z.eqb_eq. exact E.
Qed.


Section Replies.

Variable s : TFTPServer.
Variable env : client.

(** A reply that decodes as an acknowledgment: the block number decides
    between the next block and one more turn for the same block. *)
Lemma RETRIES_body_ack (data dgram : list byte) (dataM : Data) (v : locals)
  (a : Acknowledgment) :
  env (v_clock v) data = Reply dgram ->
  Acknowledgment_UnmarshalBinary (v_ackM v) (conn_Read (v_buf v) dgram)
  = (a, None) ->
  RETRIES_body env data dataM v
  = (if (ack_BlockNum a =? BlockNum dataM)%Z
     then continue_NEXT_PACKET else next_iteration,
     set_ackM (after_reply v data dgram) a, [data]).
Proof.
  intros Hev Hdec. unfold RETRIES_body. rewrite Hev.
  pose proof (Acknowledgment_decoded_opcode _ _ Hdec) as Hop.
  unfold after_reply.
  cbn [v_code v_buf v_ackM v_errM v_n v_clock after_Write set_buf set_code].
  rewrite Hop, Hdec. cbn [Z.eqb AcknowledgmentOp Pos.eqb].
  cbn [v_ackM set_ackM].
  destruct (ack_BlockNum a =? BlockNum dataM)%Z; reflexivity.
Qed.


Lemma NEXT_PACKET_done (fuel : nat) (dataM : Data) (v : locals) :
  v_n v <> DatagramSize ->
  NEXT_PACKET s env fuel dataM v = (Completed, dataM, []).
Proof.
  intros H. apply Nat.eqb_neq in H.
  destruct fuel; cbn [NEXT_PACKET]; rewrite H; reflexivity.
Qed.

End Replies.

(* ================================================================= *)
(** ** A client that acknowledges every block *)

Lemma div_BlockSize_step (n : nat) :
  BlockSize <= n ->
  n / BlockSize = S ((n - BlockSize) / BlockSize) /\
  n mod BlockSize = (n - BlockSize) mod BlockSize.
Proof.
  intros H. assert (Hb : BlockSize <> 0) by discriminate.
  replace n with ((n - BlockSize) + 1 * BlockSize) at 1 3 by lia.
  rewrite Nat.div_add, Nat.Div0.mod_add by exact Hb. lia.
Qed.

Lemma last_of_map (A B : Type) (f : A -> B) (l : list A) (d : A) :
  last (map f l) (f d) = f (last l d).
Proof.
  induction l as [|x [|y t] IH]; try reflexivity. exact IH.
Qed.

Section Acknowledged.

Variable s : TFTPServer.
Variable env : client.
Hypothesis retries_pos : 0 < retries s.
Hypothesis acked : acknowledges_every_block env.

(** An acknowledged block takes one attempt. *)
Lemma RETRIES_acked (bn : Z) (chunk : list byte) (payload' : list byte)
  (v : locals) :
  is_uint16 bn -> 4 <= length (v_buf v) ->
  let data := x00 :: x03 :: PutUint16 bn ++ chunk in
  exists v',
    RETRIES env (retries s) data {| BlockNum := bn; Payload := payload' |} v
    = (ContinueNext, v', [data]) /\
    v_n v' = length data /\ length (v_buf v') = length (v_buf v).
Proof.
  intros Hbn Hbuf data.
  destruct (retries s) as [|r] eqn:Er; [lia|]. cbn [RETRIES].
  assert (Hev : env (v_clock v) data
                = Reply (x00 :: x04 :: PutUint16 bn)).
  { rewrite acked, Acknowledgment_MarshalBinary_bytes. cbn [fst ack_BlockNum].
    subst data. rewrite block_number_data by exact Hbn. reflexivity. }
  rewrite (RETRIES_body_ack env data _ v (a := {| ack_BlockNum := bn |}) Hev).
  - cbn [ack_BlockNum BlockNum]. rewrite Z.eqb_refl.
    eexists. split; [reflexivity|].
    cbn. split; [reflexivity|apply conn_Read_length].
  - rewrite conn_Read_front by (cbn; lia).
    change ((x00 :: x04 :: PutUint16 bn) ++ ?r)
      with (x00 :: x04 :: PutUint16 bn ++ r).
    apply Acknowledgment_UnmarshalBinary_ack. exact Hbn.
Qed.

Lemma NEXT_PACKET_acked (fuel : nat) :
  forall (dataM : Data) (v : locals),
  v_n v = DatagramSize -> 4 <= length (v_buf v) ->
  length (Payload dataM) / BlockSize < fuel ->
  let r := NEXT_PACKET s env fuel dataM v in
  fst (fst r) = Completed /\
  map (fun dgram => length (payload_of dgram)) (snd r)
  = repeat BlockSize (length (Payload dataM) / BlockSize)
    ++ [length (Payload dataM) mod BlockSize] /\
  concat (map payload_of (snd r)) = Payload dataM.
Proof.
  induction fuel as [|fuel IH]; intros dataM v Hn Hbuf Hfuel; [lia|].
  cbn [NEXT_PACKET]. rewrite Hn, Nat.eqb_refl.
  rewrite Data_MarshalBinary_spec.
  destruct (RETRIES_acked (firstn BlockSize (Payload dataM))
              (skipn BlockSize (Payload dataM)) v
              (uint16_wrap_range (BlockNum dataM + 1)) Hbuf)
    as (v' & -> & Hn' & Hbuf').
  rewrite length_data in Hn'.
  set (bn := uint16_wrap (BlockNum dataM + 1)) in *.
  set (chunk := firstn BlockSize (Payload dataM)) in *.
  set (rest := skipn BlockSize (Payload dataM)) in *.
  destruct (Nat.le_gt_cases BlockSize (length (Payload dataM))) as [Hfull|Hlast].
  - assert (Hchunk : length chunk = BlockSize)
      by (apply firstn_length_le; exact Hfull).
    destruct (div_BlockSize_step Hfull) as [Hdiv Hmod].
    specialize (IH {| BlockNum := bn; Payload := rest |} v').
    assert (Hrest : length rest = length (Payload dataM) - BlockSize)
      by apply length_skipn.
    cbn [Payload] in IH. rewrite Hrest in IH.
    destruct IH as (Hend & Hlens & Hcat).
    + rewrite Hn', Hchunk. reflexivity.
    + lia.
    + lia.
    + destruct (NEXT_PACKET s env fuel _ v') as [[o d2] out2].
      cbn [fst snd] in *. split; [exact Hend|].
      cbn [app map concat]. rewrite payload_of_data, Hlens, Hchunk, Hcat.
      rewrite Hdiv, Hmod. split; [reflexivity|].
      apply firstn_skipn.
  - rewrite NEXT_PACKET_done
      by (rewrite Hn'; unfold chunk; rewrite firstn_all2 by lia;
          unfold BlockSize, DatagramSize in *; lia).
    cbn [fst snd app map concat]. rewrite payload_of_data.
    unfold chunk. rewrite firstn_all2 by lia.
    rewrite Nat.div_small, Nat.mod_small by exact Hlast.
    rewrite app_nil_r. auto.
Qed.

End Acknowledged.

(** C1 -- With a retry budget of at least one attempt (it is 10) and a
    client that acknowledges every block, a session over a payload of [L]
    bytes completes after exactly [L / 512 + 1] datagrams, all Data packets:
    [L / 512] of them carry 512 bytes and the last one carries [L mod 512]
    bytes, none when 512 divides [L] (the case [L = 0] included); together
    they carry the payload. *)
Theorem blocks_of_acknowledged_session (s : TFTPServer) (env : client) :
  0 < retries s ->
  acknowledges_every_block env ->
  let L := length (payload s) in
  let r := handle s env in
  ending r = Completed /\
  length (sent r) = L / 512 + 1 /\
  Forall Data_datagram (sent r) /\
  map (fun dgram => length (payload_of dgram)) (sent r)
  = repeat 512 (L / 512) ++ [L mod 512] /\
  length (payload_of (last (sent r) [])) = L mod 512 /\
  (L mod 512 = 0 -> payload_of (last (sent r) []) = []) /\
  concat (map payload_of (sent r)) = payload s.
Proof.
  intros Hr Hack L r.
  assert (H : ending r = Completed /\
              map (fun dgram => length (payload_of dgram)) (sent r)
              = repeat BlockSize (L / BlockSize) ++ [L mod BlockSize] /\
              concat (map payload_of (sent r)) = payload s).
  { apply (@NEXT_PACKET_acked s env Hr Hack); cbn [handle_locals v_n v_buf handle_dataM Payload].
    - reflexivity.
    - rewrite repeat_length. unfold DatagramSize. lia.
    - lia. }
  change BlockSize with 512 in H. destruct H as (Hend & Hlens & Hcat).
  assert (Hlast : length (payload_of (last (sent r) [])) = L mod 512).
  { rewrite <- (last_of_map (fun dgram => length (payload_of dgram))).
    rewrite Hlens. apply last_last. }
  split; [exact Hend|]. split; [|split; [|split; [exact Hlens|]]].
  - rewrite <- (length_map (fun dgram => length (payload_of dgram))), Hlens.
    rewrite length_app, repeat_length. reflexivity.
  - apply NEXT_PACKET_sends_Data.
  - split; [exact Hlast|]. split; [|exact Hcat].
    intros H0. rewrite H0 in Hlast. apply length_zero_iff_nil. exact Hlast.
Qed.

Lemma blocks_of_acknowledged_session_witness :
  let s := NewTFTPServer "" (repeat x61 600) in
  let L := length (payload s) in
  let r := handle s acking_client in
  ending r = Completed /\
  length (sent r) = L / 512 + 1 /\
  Forall Data_datagram (sent r) /\
  map (fun dgram => length (payload_of dgram)) (sent r)
  = repeat 512 (L / 512) ++ [L mod 512] /\
  length (payload_of (last (sent r) [])) = L mod 512 /\
  (L mod 512 = 0 -> payload_of (last (sent r) []) = []) /\
  concat (map payload_of (sent r)) = payload s.
Proof.
  apply (@blocks_of_acknowledged_session
           (NewTFTPServer "" (repeat x61 600)) acking_client).
  - cbn [retries NewTFTPServer]. lia.
  - intros k data. reflexivity.
Defined.

(** Scenarios A, B and C: payloads of 0, 512 and 600 bytes. *)
Example scenarios_A_B_C :
  let run p := handle (NewTFTPServer "" p) acking_client in
  (ending (run []), blocks (run []), sent (run []))
  = (Completed, 1%Z, [[x00; x03; x00; x01]]) /\
  (ending (run (repeat x61 512)),
   map (fun d => (block_number d, length (payload_of d)))
       (sent (run (repeat x61 512))))
  = (Completed, [(1%Z, 512); (2%Z, 0)]) /\
  (ending (run (repeat x61 600)),
   map (fun d => (block_number d, length (payload_of d)))
       (sent (run (repeat x61 600))))
  = (Completed, [(1%Z, 512); (2%Z, 88)]).
Proof.
  cbv zeta. repeat split; vm_compute; reflexivity.
Qed.

(* ================================================================= *)
(** ** A client that does not reply *)

Section Silence.

Variable s : TFTPServer.
Variable env : client.

Lemma never_replies_from_later (k0 k1 : nat) :
  k0 <= k1 -> never_replies_from env k0 -> never_replies_from env k1.
Proof.
  intros Hle H k data Hk. apply H. lia.
Qed.

Lemma RETRIES_body_timeout (data : list byte) (dataM : Data) (v : locals) :
  env (v_clock v) data = ReadTimeout ->
  RETRIES_body env data dataM v
  = (next_iteration, after_Write v (length data), [data]).
Proof.
  intros H. unfold RETRIES_body. rewrite H. reflexivity.
Qed.

(** With a silent client the loop [RETRIES] runs to its end and writes
    [data] once at each of its turns. *)
Lemma RETRIES_silent (rem : nat) (data : list byte) (dataM : Data) :
  forall v : locals,
  never_replies_from env (v_clock v) ->
  exists v', RETRIES env rem data dataM v = (LoopEnd, v', repeat data rem).
Proof.
  induction rem as [|rem IH]; intros v Hs; cbn [RETRIES].
  - exists v. reflexivity.
  - rewrite RETRIES_body_timeout by (apply Hs; lia).
    destruct (IH (after_Write v (length data))) as [v' Hv'].
    + apply never_replies_from_later with (k0 := v_clock v); [cbn; lia|exact Hs].
    + rewrite Hv'. exists v'. reflexivity.
Qed.

End Silence.

Lemma runs_cons (x : Z) (t : list Z) :
  runs (x :: t)
  = match runs t with
    | [] => [1]
    | k :: ks => if (x =? hd x t)%Z then S k :: ks else 1 :: k :: ks
    end.
Proof. reflexivity. Qed.

Lemma runs_cons_nonempty (x : Z) (t : list Z) : runs (x :: t) <> [].
Proof.
  rewrite runs_cons. destruct (runs t); [discriminate|].
  destruct (x =? hd x t)%Z; discriminate.
Qed.

Lemma runs_repeat_app (x : Z) (k : nat) (l : list Z) :
  hd_error l <> Some x ->
  runs (repeat x (S k) ++ l) = S k :: runs l.
Proof.
  intros Hhd. induction k as [|k IH].
  - cbn [repeat app]. rewrite runs_cons.
    destruct l as [|y t]; [reflexivity|].
    pose proof (@runs_cons_nonempty y t) as Hne.
    destruct (runs (y :: t)) as [|k ks]; [contradiction|].
    cbn [hd]. destruct (x =? y)%Z eqn:E; [|reflexivity].
    apply Z.eqb_eq in E. subst y. contradiction Hhd. reflexivity.
  - change (repeat x (S (S k)) ++ l) with (x :: (repeat x (S k) ++ l)).
    rewrite runs_cons, IH. cbn [repeat app hd].
    rewrite Z.eqb_refl. reflexivity.
Qed.

Lemma runs_repeat (x : Z) (k : nat) :
  Forall (fun n => n <= k) (runs (repeat x k)).
Proof.
  destruct k as [|k]; [constructor|].
  rewrite <- (app_nil_r (repeat x (S k))).
  rewrite runs_repeat_app by discriminate.
  constructor; [lia|constructor].
Qed.

(** Whatever the client does, no block is written more than [retries]
    times in a row. *)
Lemma NEXT_PACKET_runs (s : TFTPServer) (env : client) (fuel : nat) :
  forall (c : Z) (dataM : Data) (v : locals),
  BlockNum dataM = uint16_wrap c ->
  Forall (fun n => n <= retries s)
         (runs (map block_number (snd (NEXT_PACKET s env fuel dataM v)))).
Proof.
  induction fuel as [|fuel IH]; intros c dataM v Hc; cbn [NEXT_PACKET];
    destruct (v_n v =? DatagramSize)%nat; try (cbn; constructor).
  pose proof (NEXT_PACKET_block_numbers s env fuel (c + 1)) as Hseq.
  rewrite Data_MarshalBinary_spec.
  rewrite Hc, uint16_wrap_succ.
  set (b := uint16_wrap (c + 1)).
  set (data := x00 :: x03 :: _).
  set (dataM' := {| BlockNum := _; Payload := _ |}).
  assert (Hbn : block_number data = b)
    by (apply block_number_data, uint16_wrap_range).
  destruct (RETRIES env (retries s) data dataM' v) as [[x v'] out] eqn:ER.
  apply RETRIES_inv in ER. destruct ER as (Hrep & Hle & _ & Hnext & _).
  assert (Hbns : map block_number out = repeat b (length out)).
  { rewrite Hrep at 1. rewrite map_repeat, Hbn. reflexivity. }
  assert (Hstop : Forall (fun n => n <= retries s)
                         (runs (map block_number out))).
  { rewrite Hbns. eapply Forall_impl; [|apply runs_repeat].
    cbv beta. intros n Hn. lia. }
  destruct x as [|why|]; cbn [snd]; try exact Hstop.
  destruct (Hnext eq_refl) as [_ Hk].
  specialize (IH (c + 1)%Z dataM' v' eq_refl).
  destruct (Hseq dataM' v' eq_refl) as [m Hm].
  destruct (NEXT_PACKET s env fuel dataM' v') as [[o d2] out2].
  cbn [snd] in *. rewrite map_app, Hbns.
  destruct (length out) as [|k]; [lia|].
  rewrite runs_repeat_app.
  - constructor; [exact Hle|exact IH].
  - rewrite <- squash_hd, Hm. destruct m as [|m']; [discriminate|].
    cbn [seq map hd_error]. rewrite Z.add_0_r. intros E.
    injection E as E. revert E. apply uint16_wrap_succ_neq.
Qed.

(** C6 -- In every session, whatever the client does, no block is written
    more than [retries] times in a row.  Take a session at the start of any
    block: any block counter and payload cursor [dataM], any variables [v]
    left by the blocks before, however many attempts they took.  If the
    client never replies from there on, the session writes this block
    exactly [retries] times, the whole budget, then ends as Aborted for
    exhausted retries, and writes nothing more.  The budget of
    [NewTFTPServer] is 10. *)
Theorem retry_budget (s : TFTPServer) :
  (forall env : client,
     Forall (fun n => n <= retries s)
            (runs (map block_number (sent (handle s env))))) /\
  (forall (env : client) (fuel : nat) (dataM : Data) (v : locals),
     v_n v = DatagramSize ->
     never_replies_from env (v_clock v) ->
     let data := fst (fst (Data_MarshalBinary dataM)) in
     let r := NEXT_PACKET s env (S fuel) dataM v in
     ending r = Aborted RetriesExhausted /\
     sent r = repeat data (retries s) /\
     length (sent r) = retries s) /\
  (forall (addr : Addr) (p : list byte), retries (NewTFTPServer addr p) = 10).
Proof.
  split; [|split].
  - intros env. unfold sent, handle.
    apply (@NEXT_PACKET_runs s env _ 0). reflexivity.
  - intros env fuel dataM v Hn Hs data r. subst data r. unfold ending, sent.
    cbn [NEXT_PACKET]. rewrite Hn, Nat.eqb_refl.
    rewrite Data_MarshalBinary_spec. cbn [fst].
    match goal with
    | |- context [RETRIES env (retries s) ?d ?m v] =>
        destruct (@RETRIES_silent env (retries s) d m v Hs) as [v' ->]
    end.
    cbn [fst snd]. rewrite repeat_length. repeat split.
  - reflexivity.
Qed.

(** Scenario E: the client never replies to the first block. *)
Lemma retry_budget_witness :
  let s := NewTFTPServer "" [] in
  ending (handle s silent_client) = Aborted RetriesExhausted /\
  sent (handle s silent_client) = repeat [x00; x03; x00; x01] 10 /\
  length (sent (handle s silent_client)) = 10.
Proof.
  apply (proj1 (proj2 (retry_budget (NewTFTPServer "" [])))
           silent_client 0
           (handle_dataM (NewTFTPServer "" [])) handle_locals).
  - reflexivity.
  - intros k data _. reflexivity.
Defined.

(** The budget is whole again at each block: the first block is
    acknowledged at its tenth attempt, the second one never; each is written
    ten times. *)
Example budget_reset :
  let env : client :=
    fun k data => if (k =? 9)%nat then acking_client k data else ReadTimeout in
  let r := handle (NewTFTPServer "" (repeat x61 512)) env in
  ending r = Aborted RetriesExhausted /\
  map block_number (sent r) = repeat 1%Z 10 ++ repeat 2%Z 10 /\
  runs (map block_number (sent r)) = [10; 10].
Proof.
  cbv zeta. repeat split; vm_compute; reflexivity.
Qed.

(* ================================================================= *)
(** ** Replies that do not move the session on *)

Lemma RETRIES_next_iteration (env : client) (rem : nat) (data : list byte)
  (dataM : Data) (v v1 : locals) :
  RETRIES_body env data dataM v = (next_iteration, v1, [data]) ->
  RETRIES env (S rem) data dataM v
  = (let '(x, v2, out) := RETRIES env rem data dataM v1 in
     (x, v2, data :: out)).
Proof.
  intros H. cbn [RETRIES]. rewrite H.
  destruct (RETRIES env rem data dataM v1) as [[x v2] out]. reflexivity.
Qed.

(** What the loop writes first, when a turn is left and the write goes
    through, is [data]. *)
Lemma RETRIES_writes_data_first (env : client) (rem : nat) (data : list byte)
  (dataM : Data) (v : locals) :
  env (v_clock v) data <> WriteFails ->
  exists out, snd (RETRIES env (S rem) data dataM v) = data :: out.
Proof.
  intros Hw. cbn [RETRIES].
  destruct (RETRIES_body env data dataM v) as [[c v1] out1] eqn:EB.
  assert (Hout : out1 = [data]).
  { pose proof (RETRIES_body_inv _ _ _ _ EB) as (_ & _ & [[H _]|(_ & _ & H)]);
      [exact H|contradiction]. }
  subst out1.
  destruct c as [| |why].
  - destruct (RETRIES env rem data dataM v1) as [[x v2] out2].
    exists out2. reflexivity.
  - exists []. reflexivity.
  - exists []. reflexivity.
Qed.

(** C7 -- In a session that awaits the acknowledgment of a block (a turn of
    [RETRIES] is under way, [rem] more are left), a reply that decodes as an
    Acknowledgment with another block number than the current one ends the
    turn like a timeout: exactly one attempt of the budget is used, the
    variables of the block ([dataM], its number and cursor) are untouched
    and the session goes on with the [rem] turns left for the same [data].
    It does not pass to the next block on this reply; whatever is written in
    the turns left is the same Data block, and it is written again at once
    when a turn is left and the write goes through. *)
Theorem mismatched_ack_retransmits (env : client) (rem : nat)
  (data dgram : list byte) (dataM : Data) (v : locals) (a : Acknowledgment) :
  env (v_clock v) data = Reply dgram ->
  Acknowledgment_UnmarshalBinary (v_ackM v) (conn_Read (v_buf v) dgram)
  = (a, None) ->
  ack_BlockNum a <> BlockNum dataM ->
  let v1 := set_ackM (after_reply v data dgram) a in
  RETRIES_body env data dataM v = (next_iteration, v1, [data]) /\
  v_clock v1 = S (v_clock v) /\
  RETRIES env (S rem) data dataM v
  = (let '(x, v2, out) := RETRIES env rem data dataM v1 in
     (x, v2, data :: out)) /\
  snd (RETRIES env rem data dataM v1)
  = repeat data (length (snd (RETRIES env rem data dataM v1))) /\
  length (snd (RETRIES env rem data dataM v1)) <= rem /\
  (0 < rem -> env (v_clock v1) data <> WriteFails ->
   exists out, snd (RETRIES env (S rem) data dataM v) = data :: data :: out).
Proof.
  intros Hev Hdec Hne v1.
  assert (Hbody : RETRIES_body env data dataM v = (next_iteration, v1, [data])).
  { rewrite (RETRIES_body_ack env data dataM v Hev Hdec).
    apply Z.eqb_neq in Hne. rewrite Hne. reflexivity. }
  pose proof (@RETRIES_next_iteration env rem data dataM v v1 Hbody) as Hloop.
  split; [exact Hbody|]. split; [reflexivity|]. split; [exact Hloop|].
  destruct (RETRIES env rem data dataM v1) as [[x v2] out] eqn:ER.
  pose proof (RETRIES_inv _ _ _ _ _ ER) as (Hrep & Hle & _).
  cbn [snd]. split; [exact Hrep|]. split; [exact Hle|].
  intros Hrem Hw. rewrite Hloop. cbn [snd].
  destruct rem as [|rem']; [lia|].
  destruct (@RETRIES_writes_data_first env rem' data dataM v1 Hw) as [out' Ho].
  rewrite ER in Ho. cbn [snd] in Ho. exists out'. rewrite Ho. reflexivity.
Qed.

Lemma mismatched_ack_retransmits_witness :
  let data := [x00; x03; x00; x01] in
  let dataM := {| BlockNum := 1; Payload := [] |} in
  let v1 := set_ackM (after_reply handle_locals data [x00; x04; x00; x00])
              {| ack_BlockNum := 0 |} in
  RETRIES_body duplicate_ack_client data dataM handle_locals
  = (next_iteration, v1, [data]) /\
  v_clock v1 = S (v_clock handle_locals) /\
  RETRIES duplicate_ack_client (S 9) data dataM handle_locals
  = (let '(x, v2, out) := RETRIES duplicate_ack_client 9 data dataM v1 in
     (x, v2, data :: out)) /\
  snd (RETRIES duplicate_ack_client 9 data dataM v1)
  = repeat data (length (snd (RETRIES duplicate_ack_client 9 data dataM v1))) /\
  length (snd (RETRIES duplicate_ack_client 9 data dataM v1)) <= 9 /\
  (0 < 9 -> duplicate_ack_client (v_clock v1) data <> WriteFails ->
   exists out,
     snd (RETRIES duplicate_ack_client (S 9) data dataM handle_locals)
     = data :: data :: out).
Proof.
  apply (@mismatched_ack_retransmits duplicate_ack_client 9
           [x00; x03; x00; x01] [x00; x04; x00; x00]
           {| BlockNum := 1; Payload := [] |} handle_locals
           {| ack_BlockNum := 0 |}).
  - reflexivity.
  - vm_compute. reflexivity.
  - cbn. discriminate.
Defined.

Example scenario_D :
  let r := handle (NewTFTPServer "" []) duplicate_ack_client in
  ending r = Completed /\
  sent r = [[x00; x03; x00; x01]; [x00; x03; x00; x01]].
Proof.
  cbv zeta. split; vm_compute; reflexivity.
Qed.

(* ================================================================= *)
(** ** Read failures and replies that do not decode *)

(** A [return] in the loop [RETRIES] ends the session as Aborted; nothing
    is written after it. *)
Lemma NEXT_PACKET_return (s : TFTPServer) (env : client) (fuel : nat)
  (dataM : Data) (v v' : locals) (why : abort) (out : list (list byte)) :
  v_n v = DatagramSize ->
  RETRIES env (retries s) (fst (fst (Data_MarshalBinary dataM)))
    (snd (Data_MarshalBinary dataM)) v = (Return why, v', out) ->
  NEXT_PACKET s env (S fuel) dataM v
  = (Aborted why, snd (Data_MarshalBinary dataM), out).
Proof.
  intros Hn. cbn [NEXT_PACKET]. rewrite Hn, Nat.eqb_refl.
  rewrite Data_MarshalBinary_spec. cbn [fst snd]. intros ->. reflexivity.
Qed.




(** A read failure at the second attempt: two datagrams and no more. *)
Example read_failure_aborts :
  let r := handle (NewTFTPServer "" []) broken_client in
  ending r = Aborted ReadError /\
  sent r = [[x00; x03; x00; x01]; [x00; x03; x00; x01]].
Proof.
  cbv zeta. split; vm_compute; reflexivity.
Qed.

(* ================================================================= *)
(** ** More on the codec *)

Lemma Uint16_inj (b0 b1 c0 c1 : byte) :
  Uint16 b0 b1 = Uint16 c0 c1 -> b0 = c0 /\ b1 = c1.
Proof.
  rewrite !Uint16_value. intros H.
  pose proof (byte_to_Z_range b0) as Rb0.
  pose proof (byte_to_Z_range b1) as Rb1.
  pose proof (byte_to_Z_range c0) as Rc0.
  pose proof (byte_to_Z_range c1) as Rc1.
  assert (E0 : byte_to_Z b0 = byte_to_Z c0) by lia.
  assert (E1 : byte_to_Z b1 = byte_to_Z c1) by lia.
  split.
  - rewrite <- (byte_of_to_Z b0), E0. apply byte_of_to_Z.
  - rewrite <- (byte_of_to_Z b1), E1. apply byte_of_to_Z.
Qed.

Lemma ReadString_no_delim (delim : byte) (l : list byte) :
  ~ In delim l -> ReadString delim l = (l, [], Some EOF).
Proof.
  induction l as [|b l IH]; intros Hn; cbn [ReadString]; [reflexivity|].
  replace (byte_eqb b delim) with false.
  - rewrite IH; [reflexivity|]. intros Hin. apply Hn. right. exact Hin.
  - symmetry. apply byte_eqb_false. intros ->. apply Hn. left. reflexivity.
Qed.

Lemma TrimRight_NUL_id (a : gostring) : ~ In x00 a -> TrimRight_NUL a = a.
Proof.
  induction a as [|b a IH]; intros Hn; cbn [TrimRight_NUL]; [reflexivity|].
  rewrite IH by (intros Hin; apply Hn; right; exact Hin).
  destruct a as [|c a']; [|reflexivity].
  replace (byte_eqb b x00) with false; [reflexivity|].
  symmetry. apply byte_eqb_false. intros ->. apply Hn. left. reflexivity.
Qed.

Lemma Err_MarshalBinary_bytes (e : Err) :
  Err_MarshalBinary e
  = (x00 :: x05 :: PutUint16 (Code e) ++ Message e ++ [x00], None).
Proof.
  unfold Err_MarshalBinary, binary_Write, WriteString, WriteByte.
  cbn [app]. change (PutUint16 ErrorOp) with [x00; x05]. cbn [app].
  rewrite <- !app_assoc. reflexivity.
Qed.

Lemma Err_UnmarshalBinary_terminated (e0 : Err) (c0 c1 : byte)
  (msg rest : list byte) :
  ~ In x00 msg ->
  Err_UnmarshalBinary e0 (x00 :: x05 :: c0 :: c1 :: msg ++ x00 :: rest)
  = ({| Code := Uint16 c0 c1; Message := msg |}, None).
Proof.
  intros Hn. unfold Err_UnmarshalBinary. cbn [binary_Read].
  change (negb (Uint16 x00 x05 =? ErrorOp)%Z) with false. cbv iota.
  rewrite ReadString_found by exact Hn. cbn [Code Message].
  rewrite TrimRight_NUL_terminated by exact Hn. reflexivity.
Qed.

(** X1 -- Error packets make the round trip: for a 16-bit code and a
    message with no zero byte, [Err.MarshalBinary] returns no error and
    [5 + len(Message)] bytes, the opcode 5, the code, the message, a zero
    byte; [Err.UnmarshalBinary] of these bytes, into any receiver, returns
    no error and the same code and message. *)
Theorem Err_roundtrip (e e0 : Err) :
  is_uint16 (Code e) ->
  ~ In x00 (Message e) ->
  Err_MarshalBinary e
  = (x00 :: x05 :: PutUint16 (Code e) ++ Message e ++ [x00], None) /\
  length (fst (Err_MarshalBinary e)) = 5 + length (Message e) /\
  Err_UnmarshalBinary e0 (fst (Err_MarshalBinary e)) = (e, None).
Proof.
  intros Hc Hm. rewrite Err_MarshalBinary_bytes. cbn [fst].
  split; [reflexivity|]. split.
  - unfold PutUint16. cbn [app length]. rewrite length_app. cbn [length]. lia.
  - unfold PutUint16. cbn [app].
    rewrite Err_UnmarshalBinary_terminated by exact Hm.
    rewrite Uint16_PutUint16 by exact Hc. destruct e. reflexivity.
Qed.

Lemma Err_roundtrip_witness :
  let e := {| Code := ErrDiskFull; Message := list_byte_of_string "full" |} in
  Err_MarshalBinary e
  = (x00 :: x05 :: PutUint16 (Code e) ++ Message e ++ [x00], None) /\
  length (fst (Err_MarshalBinary e)) = 5 + length (Message e) /\
  Err_UnmarshalBinary {| Code := 0; Message := [] |}
    (fst (Err_MarshalBinary e)) = (e, None).
Proof.
  apply (@Err_roundtrip
           {| Code := ErrDiskFull; Message := list_byte_of_string "full" |}
           {| Code := 0; Message := [] |}).
  - unfold is_uint16, ErrDiskFull. cbn [Code]. lia.
  - cbn. intros H. repeat (destruct H as [H|H]; [discriminate|]). exact H.
Defined.

(** X2 -- [Err.UnmarshalBinary] returns no error exactly on the buffers
    that hold the opcode 5, two bytes of code and a message closed by a zero
    byte: on each of them it succeeds and gives that code and message, the
    bytes behind the zero byte being ignored, and on no other buffer does it
    succeed.  When the zero byte is missing it returns [io.EOF] and the
    receiver has been overwritten all the same, with the code and the
    unterminated message. *)
Theorem Err_UnmarshalBinary_succeeds_iff (e0 : Err) (buf : list byte) :
  (snd (Err_UnmarshalBinary e0 buf) = None <->
   exists c0 c1 msg rest,
     buf = x00 :: x05 :: c0 :: c1 :: msg ++ x00 :: rest /\ ~ In x00 msg) /\
  (forall c0 c1 msg rest,
     buf = x00 :: x05 :: c0 :: c1 :: msg ++ x00 :: rest -> ~ In x00 msg ->
     Err_UnmarshalBinary e0 buf
     = ({| Code := Uint16 c0 c1; Message := msg |}, None)) /\
  (forall c0 c1 msg,
     buf = x00 :: x05 :: c0 :: c1 :: msg -> ~ In x00 msg ->
     Err_UnmarshalBinary e0 buf
     = ({| Code := Uint16 c0 c1; Message := msg |}, Some EOF)).
Proof.
  split; [split|split].
  - unfold Err_UnmarshalBinary.
    destruct buf as [|b0 [|b1 buf]]; cbn [binary_Read snd]; try discriminate.
    destruct (Uint16 b0 b1 =? ErrorOp)%Z eqn:Eop; cbn [negb snd];
      [|discriminate].
    apply Z.eqb_eq in Eop. change ErrorOp with (Uint16 x00 x05) in Eop.
    apply Uint16_inj in Eop. destruct Eop as [-> ->].
    destruct buf as [|c0 [|c1 buf]]; cbn [binary_Read snd]; try discriminate.
    destruct (ReadString x00 buf) as [[line rest] [err|]] eqn:ER;
      cbn [snd]; [discriminate|].
    intros _. apply ReadString_ok_inv in ER.
    destruct ER as (msg & -> & -> & Hn).
    exists c0, c1, msg, rest. split; [reflexivity|exact Hn].
  - intros (c0 & c1 & msg & rest & -> & Hn).
    rewrite Err_UnmarshalBinary_terminated by exact Hn. reflexivity.
  - intros c0 c1 msg rest -> Hn.
    apply Err_UnmarshalBinary_terminated. exact Hn.
  - intros c0 c1 msg -> Hn. unfold Err_UnmarshalBinary. cbn [binary_Read].
    change (negb (Uint16 x00 x05 =? ErrorOp)%Z) with false. cbv iota.
    rewrite ReadString_no_delim by exact Hn. cbn [Code Message].
    rewrite TrimRight_NUL_id by exact Hn. reflexivity.
Qed.

Lemma Err_UnmarshalBinary_succeeds_iff_witness :
  Err_UnmarshalBinary {| Code := 0; Message := [] |}
    (x00 :: x05 :: x00 :: x03 :: list_byte_of_string "full" ++ x00 :: [x07])
  = ({| Code := Uint16 x00 x03; Message := list_byte_of_string "full" |},
     None).
Proof.
  apply (proj1 (proj2 (Err_UnmarshalBinary_succeeds_iff
                         {| Code := 0; Message := [] |}
                         (x00 :: x05 :: x00 :: x03
                            :: list_byte_of_string "full" ++ x00 :: [x07])))
           x00 x03 (list_byte_of_string "full") [x07]).
  - reflexivity.
  - cbn. intros H. repeat (destruct H as [H|H]; [discriminate|]). exact H.
Defined.

Lemma Acknowledgment_UnmarshalBinary_four (a0 : Acknowledgment)
  (hi lo : byte) (rest : list byte) :
  Acknowledgment_UnmarshalBinary a0 (x00 :: x04 :: hi :: lo :: rest)
  = ({| ack_BlockNum := Uint16 hi lo |}, None).
Proof. reflexivity. Qed.

(** X3 -- [Acknowledgment.UnmarshalBinary] returns no error exactly on the
    buffers that start with the opcode 4 and two more bytes: on each of them
    it succeeds and takes these two bytes for the block number, whatever
    follows the four bytes being ignored, and on no other buffer does it
    succeed.  When it returns an error it leaves the receiver as it was. *)
Theorem Acknowledgment_UnmarshalBinary_succeeds_iff (a0 : Acknowledgment)
  (buf : list byte) :
  (snd (Acknowledgment_UnmarshalBinary a0 buf) = None <->
   exists hi lo rest, buf = x00 :: x04 :: hi :: lo :: rest) /\
  (forall hi lo rest,
     buf = x00 :: x04 :: hi :: lo :: rest ->
     Acknowledgment_UnmarshalBinary a0 buf
     = ({| ack_BlockNum := Uint16 hi lo |}, None)) /\
  (snd (Acknowledgment_UnmarshalBinary a0 buf) <> None ->
   fst (Acknowledgment_UnmarshalBinary a0 buf) = a0).
Proof.
  split; [split|split].
  - unfold Acknowledgment_UnmarshalBinary.
    destruct buf as [|b0 [|b1 buf]]; cbn [binary_Read snd]; try discriminate.
    destruct (Uint16 b0 b1 =? AcknowledgmentOp)%Z eqn:Eop; cbn [negb snd];
      [|discriminate].
    apply Z.eqb_eq in Eop. change AcknowledgmentOp with (Uint16 x00 x04) in Eop.
    apply Uint16_inj in Eop. destruct Eop as [-> ->].
    destruct buf as [|hi [|lo rest]]; cbn [binary_Read snd]; try discriminate.
    intros _. exists hi, lo, rest. reflexivity.
  - intros (hi & lo & rest & ->).
    rewrite Acknowledgment_UnmarshalBinary_four. reflexivity.
  - intros hi lo rest ->. apply Acknowledgment_UnmarshalBinary_four.
  - unfold Acknowledgment_UnmarshalBinary.
    destruct buf as [|b0 [|b1 buf]]; cbn [binary_Read fst snd];
      try reflexivity.
    destruct (negb (Uint16 b0 b1 =? AcknowledgmentOp)%Z); cbn [fst snd];
      [reflexivity|].
    destruct buf as [|hi [|lo rest]]; cbn [binary_Read fst snd];
      try reflexivity.
    intros H. contradiction H. reflexivity.
Qed.

Lemma Acknowledgment_UnmarshalBinary_succeeds_iff_witness :
  Acknowledgment_UnmarshalBinary {| ack_BlockNum := 0 |}
    [x00; x04; x02; x01; x07; x07]
  = ({| ack_BlockNum := Uint16 x02 x01 |}, None).
Proof.
  apply (proj1 (proj2 (Acknowledgment_UnmarshalBinary_succeeds_iff
                         {| ack_BlockNum := 0 |}
                         [x00; x04; x02; x01; x07; x07]))
           x02 x01 [x07; x07]).
  reflexivity.
Defined.

(** X4 -- A Data packet as [Data.MarshalBinary] writes it is decoded by
    [Data.UnmarshalBinary], into any receiver, to the block number the
    encoder has just counted and to the bytes it took from the reader, the
    next [BlockSize] ones or those that were left; the encoder returns no
    error, also at the end of the reader. *)
Theorem Data_roundtrip (d d0 : Data) :
  snd (fst (Data_MarshalBinary d)) = None /\
  BlockNum (snd (Data_MarshalBinary d)) = uint16_wrap (BlockNum d + 1) /\
  Data_UnmarshalBinary d0 (slice_of (fst (fst (Data_MarshalBinary d))))
  = Returns ({| BlockNum := BlockNum (snd (Data_MarshalBinary d));
                Payload := firstn BlockSize (Payload d) |}, None).
Proof.
  rewrite Data_MarshalBinary_spec. cbn [fst snd BlockNum].
  split; [reflexivity|]. split; [reflexivity|].
  apply Data_UnmarshalBinary_data, uint16_wrap_range.
Qed.

(** X5 -- On a slice of four bytes or more [Data.UnmarshalBinary] does not
    panic: when the first two bytes are the opcode 3 it returns no error,
    the next two bytes as block number and the bytes from the fifth to the
    end of the slice (not of its backing array) as payload, an empty payload
    for a slice of exactly four bytes; otherwise it returns an error and
    leaves the receiver as it was. *)
Theorem Data_UnmarshalBinary_from_4 (d : Data) (buf : slice) :
  well_formed buf ->
  4 <= len buf ->
  exists b0 b1 b2 b3 rest,
    backing buf = b0 :: b1 :: b2 :: b3 :: rest /\
    Data_UnmarshalBinary d buf
    = if (Uint16 b0 b1 =? DataOp)%Z
      then Returns ({| BlockNum := Uint16 b2 b3;
                       Payload := firstn (len buf - 4) rest |}, None)
      else Returns (d, Some invalid_data).
Proof.
  unfold well_formed, cap. intros Hwf Hlen.
  destruct buf as [arr n]. cbn [backing len] in *.
  destruct arr as [|b0 [|b1 [|b2 [|b3 rest]]]]; cbn [length] in Hwf; try lia.
  exists b0, b1, b2, b3, rest. split; [reflexivity|].
  unfold Data_UnmarshalBinary, slice_range, slice_from, cap.
  cbn [backing len length Nat.leb andb].
  cbn [contents len backing Nat.sub skipn firstn binary_Read].
  destruct (Uint16 b0 b1 =? DataOp)%Z; cbn [negb]; [|reflexivity].
  destruct n as [|[|[|[|n']]]]; try lia.
  cbn [BlockNum Payload contents len backing]. reflexivity.
Qed.

Lemma Data_UnmarshalBinary_from_4_witness :
  exists b0 b1 b2 b3 rest,
    backing {| backing := [x00; x03; x00; x07; x41; x42]; len := 5 |}
    = b0 :: b1 :: b2 :: b3 :: rest /\
    Data_UnmarshalBinary {| BlockNum := 0; Payload := [] |}
      {| backing := [x00; x03; x00; x07; x41; x42]; len := 5 |}
    = if (Uint16 b0 b1 =? DataOp)%Z
      then Returns ({| BlockNum := Uint16 b2 b3;
                       Payload := firstn (5 - 4) rest |}, None)
      else Returns ({| BlockNum := 0; Payload := [] |}, Some invalid_data).
Proof.
  apply (@Data_UnmarshalBinary_from_4 {| BlockNum := 0; Payload := [] |}
           {| backing := [x00; x03; x00; x07; x41; x42]; len := 5 |}).
  - unfold well_formed, cap. cbn. lia.
  - cbn. lia.
Defined.

Lemma MarshalBinary_times_spec (p : list byte) (k : nat) :
  MarshalBinary_times {| BlockNum := 0; Payload := p |} k
  = {| BlockNum := uint16_wrap (Z.of_nat k);
       Payload := skipn (k * BlockSize) p |}.
Proof.
  induction k as [|k IH].
  - reflexivity.
  - cbn [MarshalBinary_times]. rewrite IH, Data_MarshalBinary_spec.
    cbn [snd BlockNum Payload]. rewrite uint16_wrap_succ, skipn_skipn.
    replace (Z.of_nat (S k)) with (Z.of_nat k + 1)%Z by lia.
    replace (S k * BlockSize) with (BlockSize + k * BlockSize) by lia.
    reflexivity.
Qed.

(** X6 -- Calls of [Data.MarshalBinary] on one receiver, with the counter
    at 0 and a reader over [p] at the start, cut [p] into blocks: the call
    number [k + 1] returns no error and writes the block of index [k], with
    the number [k + 1] modulo 65536 and the bytes of [p] from [k * BlockSize]
    on, [BlockSize] of them or what is left, nothing at all past the end of
    [p]; no datagram is longer than [DatagramSize]. *)
Theorem Data_MarshalBinary_blocks (p : list byte) (k : nat) :
  let d := MarshalBinary_times {| BlockNum := 0; Payload := p |} k in
  fst (Data_MarshalBinary d) = (data_block p k, None) /\
  block_number (data_block p k) = uint16_wrap (Z.of_nat k + 1) /\
  payload_of (data_block p k) = firstn BlockSize (skipn (k * BlockSize) p) /\
  length (data_block p k) = 4 + Nat.min BlockSize (length p - k * BlockSize) /\
  length (data_block p k) <= DatagramSize /\
  (length p <= k * BlockSize -> data_block p k
     = x00 :: x03 :: PutUint16 (uint16_wrap (Z.of_nat k + 1))).
Proof.
  cbv zeta. rewrite MarshalBinary_times_spec, Data_MarshalBinary_spec.
  cbn [fst BlockNum Payload]. rewrite uint16_wrap_succ.
  unfold data_block.
  split; [reflexivity|].
  split; [apply block_number_data, uint16_wrap_range|].
  split; [apply payload_of_data|].
  rewrite length_data, length_firstn, length_skipn.
  split; [reflexivity|]. split.
  - unfold BlockSize, DatagramSize. lia.
  - intros Hend. rewrite skipn_all2 by exact Hend.
    rewrite firstn_nil. reflexivity.
Qed.

(** X7 -- What [ReadWriteRequest.UnmarshalBinary] accepts, it reduces to a
    normal form: encoding the decoded request gives the opcode Read (also
    when the buffer held the opcode Write), the filename, the mode [octet]
    in lower case and nothing behind it, and decoding that encoding gives
    the decoded request again. *)
Theorem request_normal_form (r0 r r1 : ReadWriteRequest) (buf : list byte) :
  ReadWriteRequest_UnmarshalBinary r0 buf = (r, None) ->
  Mode r = octet /\
  ReadWriteRequest_MarshalBinary r
  = (x00 :: x01 :: Filename r ++ x00 :: octet ++ [x00], None) /\
  ReadWriteRequest_UnmarshalBinary r1 (fst (ReadWriteRequest_MarshalBinary r))
  = (r, None).
Proof.
  intros Hdec.
  destruct (decodeRequest_accepted_inv _ _ Hdec)
    as (op & fname & mode & rest & -> & Hop & Hne & Hf & Hm & Hl).
  rewrite decodeRequest_accepts in Hdec by assumption.
  injection Hdec as <-. cbn [Filename Mode].
  split; [reflexivity|].
  rewrite ReadWriteRequest_MarshalBinary_bytes. cbn [Filename Mode fst].
  change (negb (bytes_eqb octet [])) with true. cbv iota.
  split; [reflexivity|].
  apply decodeRequest_accepts; auto.
Qed.

Lemma request_normal_form_witness :
  let buf := x00 :: x02 :: list_byte_of_string "f" ++ x00
               :: list_byte_of_string "OCTET" ++ [x00; x09] in
  let r := {| Filename := list_byte_of_string "f"; Mode := octet |} in
  Mode r = octet /\
  ReadWriteRequest_MarshalBinary r
  = (x00 :: x01 :: Filename r ++ x00 :: octet ++ [x00], None) /\
  ReadWriteRequest_UnmarshalBinary {| Filename := []; Mode := [] |}
    (fst (ReadWriteRequest_MarshalBinary r))
  = (r, None).
Proof.
  apply (@request_normal_form {| Filename := []; Mode := [] |}
           {| Filename := list_byte_of_string "f"; Mode := octet |}
           {| Filename := []; Mode := [] |}
           (x00 :: x02 :: list_byte_of_string "f" ++ x00
              :: list_byte_of_string "OCTET" ++ [x00; x09])).
  vm_compute. reflexivity.
Defined.

(* ================================================================= *)
(** ** The shape of every session *)

Lemma length_data_block (p : list byte) (j : nat) :
  length (data_block p j) = 4 + Nat.min BlockSize (length p - j * BlockSize).
Proof.
  unfold data_block. rewrite length_data, length_firstn, length_skipn.
  reflexivity.
Qed.

Lemma length_trace_from (p : list byte) (ns : list nat) :
  forall j, length (trace_from p j ns) = list_sum ns.
Proof.
  induction ns as [|n ns IH]; intros j; cbn [trace_from]; [reflexivity|].
  change (list_sum (n :: ns)) with (n + list_sum ns).
  rewrite length_app, repeat_length, IH. reflexivity.
Qed.

Lemma list_sum_bound (r : nat) (ns : list nat) :
  Forall (fun n => n <= r) ns -> list_sum ns <= r * length ns.
Proof.
  induction 1 as [|n ns Hn _ IH].
  - rewrite Nat.mul_0_r. apply le_n.
  - change (list_sum (n :: ns)) with (n + list_sum ns).
    cbn [length]. rewrite Nat.mul_succ_r. lia.
Qed.

Lemma trace_from_blocks (p : list byte) (ns : list nat) :
  forall j d, In d (trace_from p j ns) -> exists i, d = data_block p i.
Proof.
  induction ns as [|n ns IH]; intros j d; cbn [trace_from]; [contradiction|].
  intros Hin. apply in_app_or in Hin. destruct Hin as [Hin|Hin].
  - apply repeat_spec in Hin. exists j. exact Hin.
  - exact (IH _ _ Hin).
Qed.

Lemma firstn_app_skipn (A : Type) (a b : nat) :
  forall l : list A, firstn a l ++ firstn b (skipn a l) = firstn (a + b) l.
Proof.
  induction a as [|a IH]; intros l; [reflexivity|].
  destruct l as [|x l]; cbn [firstn skipn Nat.add app].
  - rewrite firstn_nil. reflexivity.
  - rewrite IH. reflexivity.
Qed.

(** The payloads of the first [m] blocks of [p], put end to end, are the
    first [m * BlockSize] bytes of [p]. *)
Lemma concat_block_payloads (p : list byte) (m : nat) :
  concat (map (fun j => payload_of (data_block p j)) (seq 0 m))
  = firstn (m * BlockSize) p.
Proof.
  induction m as [|m IH]; [reflexivity|].
  rewrite seq_S, map_app, concat_app, IH. cbn [map concat Nat.add].
  unfold data_block at 1. rewrite payload_of_data, app_nil_r.
  rewrite firstn_app_skipn. f_equal. lia.
Qed.

Section Shape.

Variable s : TFTPServer.
Variable env : client.

Let p := payload s.

(** The state of [NEXT_PACKET] before the block of index [j]. *)
Let before (j : nat) : Data :=
  {| BlockNum := uint16_wrap (Z.of_nat j);
     Payload := skipn (j * BlockSize) p |}.

Lemma NEXT_PACKET_trace (fuel : nat) :
  forall (j : nat) (v : locals),
  exists ns,
    snd (NEXT_PACKET s env fuel (before j) v) = trace_from p j ns /\
    Forall (fun n => n <= retries s) ns /\
    Forall (fun n => 1 <= n) (removelast ns) /\
    length ns <= (length p - j * BlockSize) / BlockSize + 1 /\
    (v_n v <> DatagramSize -> ns = []) /\
    (fst (fst (NEXT_PACKET s env fuel (before j) v)) = Completed ->
     Forall (fun n => 1 <= n) ns /\
     BlockNum (snd (fst (NEXT_PACKET s env fuel (before j) v)))
     = uint16_wrap (Z.of_nat (j + length ns)) /\
     (v_n v = DatagramSize ->
      length ns = (length p - j * BlockSize) / BlockSize + 1)).
Proof.
  induction fuel as [|fuel IH]; intros j v.
  - exists []. cbn [NEXT_PACKET].
    destruct (v_n v =? DatagramSize)%nat eqn:En; cbn [fst snd trace_from
      removelast length];
      (split; [reflexivity|]); (split; [constructor|]);
      (split; [constructor|]); (split; [lia|]); (split; [reflexivity|]).
    + discriminate.
    + intros _. split; [constructor|]. split.
      * unfold before. cbn [BlockNum]. rewrite Nat.add_0_r. reflexivity.
      * intros E. apply Nat.eqb_neq in En. contradiction.
  - cbn [NEXT_PACKET].
    destruct (v_n v =? DatagramSize)%nat eqn:En.
    2:{ exists []. cbn [fst snd trace_from removelast length].
        split; [reflexivity|]. split; [constructor|]. split; [constructor|].
        split; [lia|]. split; [reflexivity|]. intros _.
        split; [constructor|]. split.
        - unfold before. cbn [BlockNum]. rewrite Nat.add_0_r. reflexivity.
        - intros E. apply Nat.eqb_neq in En. contradiction. }
    apply Nat.eqb_eq in En.
    rewrite Data_MarshalBinary_spec.
    assert (Hdata : x00 :: x03
                      :: PutUint16 (uint16_wrap (BlockNum (before j) + 1))
                      ++ firstn BlockSize (Payload (before j))
                    = data_block p j).
    { unfold before, data_block. cbn [BlockNum Payload].
      rewrite uint16_wrap_succ. reflexivity. }
    assert (Hnext : {| BlockNum := uint16_wrap (BlockNum (before j) + 1);
                       Payload := skipn BlockSize (Payload (before j)) |}
                    = before (S j)).
    { unfold before. cbn [BlockNum Payload].
      rewrite uint16_wrap_succ, skipn_skipn.
      replace (Z.of_nat (S j)) with (Z.of_nat j + 1)%Z by lia.
      replace (S j * BlockSize) with (BlockSize + j * BlockSize) by lia.
      reflexivity. }
    rewrite Hdata, Hnext.
    destruct (RETRIES env (retries s) (data_block p j) (before (S j)) v)
      as [[x v'] out] eqn:ER.
    apply RETRIES_inv in ER.
    destruct ER as (Hrep & Hle & _ & Hcont & _).
    assert (Hstop : forall why : abort,
              exists ns,
                out = trace_from p j ns /\
                Forall (fun n => n <= retries s) ns /\
                Forall (fun n => 1 <= n) (removelast ns) /\
                length ns <= (length p - j * BlockSize) / BlockSize + 1 /\
                (v_n v <> DatagramSize -> ns = []) /\
                (Aborted why = Completed ->
                 Forall (fun n => 1 <= n) ns /\
                 BlockNum (before (S j))
                 = uint16_wrap (Z.of_nat (j + length ns)) /\
                 (v_n v = DatagramSize ->
                  length ns = (length p - j * BlockSize) / BlockSize + 1))).
    { intros why. exists [length out]. cbn [trace_from removelast length].
      rewrite app_nil_r. split; [exact Hrep|].
      split; [constructor; [exact Hle|constructor]|].
      split; [constructor|]. split; [lia|].
      split; [intros H; contradiction|]. discriminate. }
    destruct x as [|why|]; cbn [fst snd];
      [|exact (Hstop why)|exact (Hstop RetriesExhausted)].
    destruct (Hcont eq_refl) as [Hn' Hk].
    rewrite length_data_block in Hn'.
    destruct (Nat.eq_dec (v_n v') DatagramSize) as [Hfull|Hlast].
    + (* a full block: the loop goes on *)
      assert (Hlen : BlockSize <= length p - j * BlockSize)
        by (unfold BlockSize, DatagramSize in *; lia).
      destruct (div_BlockSize_step Hlen) as [Hdiv _].
      replace (length p - j * BlockSize - BlockSize)
        with (length p - S j * BlockSize) in Hdiv by lia.
      destruct (IH (S j) v') as (ns & Hout & Hmax & Hmin & Hcount & _ & Hdone).
      destruct (NEXT_PACKET s env fuel (before (S j)) v') as [[o d2] out2].
      cbn [fst snd] in *. exists (length out :: ns).
      cbn [trace_from length]. rewrite <- Hrep, <- Hout.
      split; [reflexivity|]. split; [constructor; assumption|].
      split.
      { destruct ns as [|n ns']; [constructor|].
        change (removelast (length out :: n :: ns'))
          with (length out :: removelast (n :: ns')).
        constructor; assumption. }
      split; [lia|]. split; [intros H; contradiction|].
      intros Ho. destruct (Hdone Ho) as (Hall & Hbn & Hcnt).
      split; [constructor; assumption|]. split.
      * rewrite Hbn. f_equal. lia.
      * intros _. rewrite (Hcnt Hfull). lia.
    + (* a short block: it was the last one *)
      rewrite NEXT_PACKET_done by exact Hlast.
      exists [length out]. cbn [fst snd trace_from removelast length].
      rewrite !app_nil_r. split; [exact Hrep|].
      split; [constructor; [exact Hle|constructor]|].
      split; [constructor|]. split; [lia|].
      split; [intros H; contradiction|].
      intros _. split; [constructor; [exact Hk|constructor]|]. split.
      * unfold before. cbn [BlockNum]. f_equal. lia.
      * intros _.
        assert (Hshort : length p - j * BlockSize < BlockSize)
          by (unfold BlockSize, DatagramSize in *; lia).
        rewrite Nat.div_small by exact Hshort. reflexivity.
Qed.

End Shape.

Lemma handle_trace (s : TFTPServer) (env : client) :
  exists ns,
    sent (handle s env) = trace_from (payload s) 0 ns /\
    Forall (fun n => n <= retries s) ns /\
    Forall (fun n => 1 <= n) (removelast ns) /\
    length ns <= length (payload s) / BlockSize + 1 /\
    (ending (handle s env) = Completed ->
     Forall (fun n => 1 <= n) ns /\
     blocks (handle s env) = uint16_wrap (Z.of_nat (length ns)) /\
     length ns = length (payload s) / BlockSize + 1).
Proof.
  destruct (NEXT_PACKET_trace s env (S (length (payload s) / BlockSize))
              0 handle_locals)
    as (ns & Hout & Hmax & Hmin & Hcount & _ & Hdone).
  change (0 * BlockSize) with 0 in *. rewrite Nat.sub_0_r in *.
  exists ns. split; [exact Hout|]. split; [exact Hmax|].
  split; [exact Hmin|]. split; [exact Hcount|].
  intros Ho. destruct (Hdone Ho) as (Hall & Hbn & Hcnt).
  split; [exact Hall|]. split; [exact Hbn|]. apply Hcnt. reflexivity.
Qed.

(** X8 -- Whatever the client and the network do, what a session writes
    to its connection is: the block 1 of the payload a number of times,
    then the block 2 a number of times, and so on, with no block left out
    and none out of order; no block is written more than [retries] times;
    every block but the last one reached is written at least once; and no
    more than [L / 512 + 1] blocks are reached. *)
Theorem session_trace (s : TFTPServer) (env : client) :
  exists ns : list nat,
    sent (handle s env) = trace_from (payload s) 0 ns /\
    Forall (fun n => n <= retries s) ns /\
    Forall (fun n => 1 <= n) (removelast ns) /\
    length ns <= length (payload s) / 512 + 1.
Proof.
  destruct (handle_trace s env) as (ns & Hout & Hmax & Hmin & Hcount & _).
  exists ns. auto.
Qed.

(** X9 -- Every session ends, completed or aborted, whatever the client
    does, after at most [retries * (L / 512 + 1)] datagrams, none of them
    longer than 516 bytes. *)
Theorem session_bounded (s : TFTPServer) (env : client) :
  ending (handle s env) <> OutOfFuel /\
  (ending (handle s env) = Completed \/
   exists why, ending (handle s env) = Aborted why) /\
  length (sent (handle s env))
  <= retries s * (length (payload s) / 512 + 1) /\
  Forall (fun dgram => length dgram <= 516) (sent (handle s env)).
Proof.
  pose proof (handle_terminates s env) as Hterm.
  split; [exact Hterm|]. split.
  { unfold ending. destruct (fst (fst (handle s env))) as [|why|];
      [left; reflexivity|right; exists why; reflexivity|contradiction]. }
  destruct (handle_trace s env) as (ns & Hout & Hmax & _ & Hcount & _).
  rewrite Hout. split.
  - rewrite length_trace_from.
    apply Nat.le_trans with (m := retries s * length ns).
    + apply list_sum_bound. exact Hmax.
    + apply Nat.mul_le_mono_l. exact Hcount.
  - apply Forall_forall. intros d Hd.
    apply trace_from_blocks in Hd. destruct Hd as [i ->].
    rewrite length_data_block. unfold BlockSize, DatagramSize. lia.
Qed.

(** X10 -- A session that ends as completed has written every block of
    the payload, each at least once and at most [retries] times, in order,
    [L / 512 + 1] blocks in all; their payloads put end to end are the
    served file; and the count it logs is [L / 512 + 1] modulo 65536. *)
Theorem completed_session (s : TFTPServer) (env : client) :
  ending (handle s env) = Completed ->
  exists ns : list nat,
    length ns = length (payload s) / 512 + 1 /\
    Forall (fun n => 1 <= n <= retries s) ns /\
    sent (handle s env) = trace_from (payload s) 0 ns /\
    concat (map (fun j => payload_of (data_block (payload s) j))
                (seq 0 (length ns))) = payload s /\
    blocks (handle s env)
    = uint16_wrap (Z.of_nat (length (payload s) / 512 + 1)).
Proof.
  intros Ho.
  destruct (handle_trace s env) as (ns & Hout & Hmax & _ & _ & Hdone).
  destruct (Hdone Ho) as (Hall & Hbn & Hcnt).
  exists ns. split; [exact Hcnt|]. split.
  { apply Forall_forall. intros n Hn. split.
    - exact (proj1 (Forall_forall _ _) Hall n Hn).
    - exact (proj1 (Forall_forall _ _) Hmax n Hn). }
  split; [exact Hout|]. split.
  - rewrite concat_block_payloads. apply firstn_all2. rewrite Hcnt.
    change 512 with BlockSize.
    pose proof (Nat.div_mod_eq (length (payload s)) BlockSize) as Hdm.
    pose proof (Nat.mod_upper_bound (length (payload s)) BlockSize) as Hub.
    assert (Hb : BlockSize <> 0) by discriminate. specialize (Hub Hb).
    rewrite Nat.mul_comm in Hdm. lia.
  - rewrite Hbn, Hcnt. reflexivity.
Qed.

Lemma completed_session_witness :
  let s := NewTFTPServer "" (repeat x61 600) in
  exists ns : list nat,
    length ns = length (payload s) / 512 + 1 /\
    Forall (fun n => 1 <= n <= retries s) ns /\
    sent (handle s duplicate_ack_client) = trace_from (payload s) 0 ns /\
    concat (map (fun j => payload_of (data_block (payload s) j))
                (seq 0 (length ns))) = payload s /\
    blocks (handle s duplicate_ack_client)
    = uint16_wrap (Z.of_nat (length (payload s) / 512 + 1)).
Proof.
  apply (@completed_session (NewTFTPServer "" (repeat x61 600))
           duplicate_ack_client).
  vm_compute. reflexivity.
Defined.

(* ================================================================= *)
(** ** The other ways out of a turn *)

Lemma NEXT_PACKET_first_turn (s : TFTPServer) (env : client) (fuel : nat)
  (dataM : Data) (v v1 : locals) (why : abort) (out : list (list byte)) :
  v_n v = DatagramSize -> 0 < retries s ->
  RETRIES_body env (fst (fst (Data_MarshalBinary dataM)))
    (snd (Data_MarshalBinary dataM)) v = (return_ why, v1, out) ->
  NEXT_PACKET s env (S fuel) dataM v
  = (Aborted why, snd (Data_MarshalBinary dataM), out).
Proof.
  intros Hn Hr Hbody.
  apply NEXT_PACKET_return with (v' := v1); [exact Hn|].
  destruct (retries s) as [|r]; [lia|]. cbn [RETRIES].
  rewrite Hbody. reflexivity.
Qed.




(** The session of [error_client]: a timeout, then an Error packet. *)
Example peer_error_session :
  let r := handle (NewTFTPServer "" (repeat x61 600)) error_client in
  ending r = Aborted PeerError /\
  map block_number (sent r) = [1%Z; 1%Z].
Proof.
  cbv zeta. split; vm_compute; reflexivity.
Qed.

(** X12 -- When [conn.Write] fails the session ends at once as Aborted:
    the datagram of this turn is not on the wire, no read is made, and the
    turns that were left are not used.  At the first turn of a block the
    session ends with nothing written for this block, though the block has
    been encoded and counted. *)
Theorem write_failure_aborts (s : TFTPServer) (env : client) (rem : nat)
  (data : list byte) (dataM : Data) (v : locals) :
  env (v_clock v) data = WriteFails ->
  RETRIES env (S rem) data dataM v
  = (Return WriteError, after_Write v 0, []) /\
  (forall (fuel : nat) (dataM0 : Data),
     v_n v = DatagramSize -> 0 < retries s ->
     data = fst (fst (Data_MarshalBinary dataM0)) ->
     NEXT_PACKET s env (S fuel) dataM0 v
     = (Aborted WriteError, snd (Data_MarshalBinary dataM0), []) /\
     BlockNum (snd (Data_MarshalBinary dataM0))
     = uint16_wrap (BlockNum dataM0 + 1)).
Proof.
  intros Hev.
  assert (Hbody : forall dM, RETRIES_body env data dM v
                             = (return_ WriteError, after_Write v 0, [])).
  { intros dM. unfold RETRIES_body. rewrite Hev. reflexivity. }
  split.
  - cbn [RETRIES]. rewrite Hbody. reflexivity.
  - intros fuel dataM0 Hn Hr Hd. subst data. split.
    + apply NEXT_PACKET_first_turn with (v1 := after_Write v 0);
        [exact Hn|exact Hr|apply Hbody].
    + rewrite Data_MarshalBinary_spec. reflexivity.
Qed.

Lemma write_failure_aborts_witness :
  let data := [x00; x03; x00; x01] in
  let v := after_Write (after_Write handle_locals 4) 4 in
  RETRIES unplugged_client (S 7) data {| BlockNum := 1; Payload := [] |} v
  = (Return WriteError, after_Write v 0, []) /\
  (forall (fuel : nat) (dataM0 : Data),
     v_n v = DatagramSize -> 0 < retries (NewTFTPServer "" []) ->
     data = fst (fst (Data_MarshalBinary dataM0)) ->
     NEXT_PACKET (NewTFTPServer "" []) unplugged_client (S fuel) dataM0 v
     = (Aborted WriteError, snd (Data_MarshalBinary dataM0), []) /\
     BlockNum (snd (Data_MarshalBinary dataM0))
     = uint16_wrap (BlockNum dataM0 + 1)).
Proof.
  apply (@write_failure_aborts (NewTFTPServer "" []) unplugged_client 7
           [x00; x03; x00; x01] {| BlockNum := 1; Payload := [] |}
           (after_Write (after_Write handle_locals 4) 4)).
  reflexivity.
Defined.

(** X13 -- An acknowledgment with the number of the block just written
    moves the session on after a single write of that block: when the block
    was a full one the next block is encoded, with the whole budget; when it
    was shorter than [BlockSize] the session ends as completed, this block
    being the last thing written. *)
Theorem matching_ack_advances (s : TFTPServer) (env : client) (fuel : nat)
  (dataM : Data) (v : locals) (dgram : list byte) (a : Acknowledgment) :
  v_n v = DatagramSize ->
  0 < retries s ->
  let data := fst (fst (Data_MarshalBinary dataM)) in
  let dataM' := snd (Data_MarshalBinary dataM) in
  env (v_clock v) data = Reply dgram ->
  Acknowledgment_UnmarshalBinary (v_ackM v) (conn_Read (v_buf v) dgram)
  = (a, None) ->
  ack_BlockNum a = BlockNum dataM' ->
  let v1 := set_ackM (after_reply v data dgram) a in
  NEXT_PACKET s env (S fuel) dataM v
  = (let '(o, d, out) := NEXT_PACKET s env fuel dataM' v1 in
     (o, d, data :: out)) /\
  (length (Payload dataM) < BlockSize ->
   NEXT_PACKET s env (S fuel) dataM v = (Completed, dataM', [data])) /\
  (BlockSize <= length (Payload dataM) -> v_n v1 = DatagramSize).
Proof.
  intros Hn Hr data dataM' Hev Hdec Hbn v1.
  assert (Hstep : NEXT_PACKET s env (S fuel) dataM v
                  = (let '(o, d, out) := NEXT_PACKET s env fuel dataM' v1 in
                     (o, d, data :: out))).
  { cbn [NEXT_PACKET]. rewrite Hn, Nat.eqb_refl.
    subst data dataM' v1. rewrite Data_MarshalBinary_spec in *.
    cbn [fst snd] in *.
    destruct (retries s) as [|r]; [lia|]. cbn [RETRIES].
    rewrite (RETRIES_body_ack env _ _ v Hev Hdec).
    apply Z.eqb_eq in Hbn. rewrite Hbn.
    destruct (NEXT_PACKET s env fuel _ _) as [[o d] out]. reflexivity. }
  assert (Hlen : v_n v1 = 4 + Nat.min BlockSize (length (Payload dataM))).
  { subst v1 data. rewrite Data_MarshalBinary_spec. cbn [fst].
    cbn [v_n set_ackM after_reply set_code set_buf after_Write].
    rewrite length_data, length_firstn. reflexivity. }
  split; [exact Hstep|]. split.
  - intros Hshort. rewrite Hstep, NEXT_PACKET_done; [reflexivity|].
    rewrite Hlen. unfold BlockSize, DatagramSize in *. lia.
  - intros Hfull. rewrite Hlen. unfold BlockSize, DatagramSize in *. lia.
Qed.

Lemma matching_ack_advances_witness :
  let s := NewTFTPServer "" (repeat x61 600) in
  let dataM := handle_dataM s in
  let v := handle_locals in
  let data := fst (fst (Data_MarshalBinary dataM)) in
  let dataM' := snd (Data_MarshalBinary dataM) in
  let v1 := set_ackM (after_reply v data [x00; x04; x00; x01])
              {| ack_BlockNum := 1 |} in
  NEXT_PACKET s acking_client (S 1) dataM v
  = (let '(o, d, out) := NEXT_PACKET s acking_client 1 dataM' v1 in
     (o, d, data :: out)) /\
  (length (Payload dataM) < BlockSize ->
   NEXT_PACKET s acking_client (S 1) dataM v = (Completed, dataM', [data])) /\
  (BlockSize <= length (Payload dataM) -> v_n v1 = DatagramSize).
Proof.
  apply (@matching_ack_advances (NewTFTPServer "" (repeat x61 600))
           acking_client 1
           (handle_dataM (NewTFTPServer "" (repeat x61 600)))
           handle_locals [x00; x04; x00; x01] {| ack_BlockNum := 1 |}).
  - reflexivity.
  - cbn [retries NewTFTPServer]. lia.
  - vm_compute. reflexivity.
  - vm_compute. reflexivity.
  - vm_compute. reflexivity.
Defined.

(* ================================================================= *)
(** ** The reply buffer *)

Lemma conn_Read_idem (buf dgram : list byte) :
  conn_Read buf (conn_Read buf dgram) = conn_Read buf dgram.
Proof.
  unfold conn_Read at 1.
  rewrite firstn_all2 by (rewrite conn_Read_length; apply le_n).
  rewrite conn_Read_length, skipn_all. apply app_nil_r.
Qed.

(** X14 -- The session decodes its whole reply buffer, not the bytes it
    has just received: a reply acts exactly as the reply of the size of the
    buffer that is made of its own bytes, cut at that size, followed by the
    bytes that earlier replies left behind them in the buffer.  So a reply
    of fewer than four bytes is completed by old bytes, and an empty one is
    the reply before it once more. *)
Theorem reply_read_over_stale_bytes (env1 env2 : client)
  (data d1 d2 : list byte) (dataM : Data) (v : locals) :
  env1 (v_clock v) data = Reply d1 ->
  env2 (v_clock v) data = Reply d2 ->
  d2 = firstn (length (v_buf v)) d1 ++ skipn (length d1) (v_buf v) ->
  length d2 = length (v_buf v) /\
  RETRIES_body env1 data dataM v = RETRIES_body env2 data dataM v /\
  (d1 = [] -> d2 = v_buf v).
Proof.
  intros H1 H2 Hd.
  assert (Hd' : d2 = conn_Read (v_buf v) d1) by exact Hd.
  split; [rewrite Hd'; apply conn_Read_length|]. split.
  - unfold RETRIES_body. rewrite H1, H2.
    cbn [v_code v_buf v_ackM v_errM v_n v_clock after_Write set_buf set_code].
    rewrite Hd', conn_Read_idem. reflexivity.
  - intros ->. rewrite Hd. destruct (v_buf v); reflexivity.
Qed.

Lemma reply_read_over_stale_bytes_witness :
  let v := set_buf (after_Write handle_locals 516)
             (conn_Read (v_buf handle_locals) [x00; x04; x00; x01]) in
  let data := data_block (repeat x61 512) 1 in
  let d2 := x00 :: x04 :: x00 :: x01 :: repeat x00 512 in
  length d2 = length (v_buf v) /\
  RETRIES_body lazy_client data {| BlockNum := 2; Payload := [] |} v
  = RETRIES_body duplicate_ack_client_at_1 data
      {| BlockNum := 2; Payload := [] |} v /\
  ([x00; x04] = [] -> d2 = v_buf v).
Proof.
  apply (@reply_read_over_stale_bytes lazy_client duplicate_ack_client_at_1
           (data_block (repeat x61 512) 1) [x00; x04]
           (x00 :: x04 :: x00 :: x01 :: repeat x00 512)
           {| BlockNum := 2; Payload := [] |}
           (set_buf (after_Write handle_locals 516)
              (conn_Read (v_buf handle_locals) [x00; x04; x00; x01]))).
  - reflexivity.
  - reflexivity.
  - vm_compute. reflexivity.
Defined.

(** The first two bytes of an acknowledgment alone, sent for the second
    block, are read with the number left by the acknowledgment of the
    first: the second block is written again and again. *)
Example truncated_ack_session :
  let r := handle (NewTFTPServer "" (repeat x61 512)) lazy_client in
  ending r = Aborted RetriesExhausted /\
  runs (map block_number (sent r)) = [1; 10].
Proof.
  cbv zeta. split; vm_compute; reflexivity.
Qed.

(* ================================================================= *)
(** ** More on the dispatcher *)

Lemma skipn_repeat (A : Type) (x : A) (n m : nat) :
  skipn n (repeat x m) = repeat x (m - n).
Proof.
  revert m. induction n as [|n IH]; intros m.
  - rewrite Nat.sub_0_r. reflexivity.
  - destruct m as [|m]; [reflexivity|]. cbn [repeat skipn Nat.sub]. apply IH.
Qed.

(** The buffer that the dispatcher decodes for a datagram that fits. *)
Lemma dispatcher_buffer (dgram : list byte) :
  length dgram <= DatagramSize ->
  conn_Read (repeat x00 DatagramSize) dgram
  = dgram ++ repeat x00 (DatagramSize - length dgram).
Proof.
  intros H. rewrite conn_Read_front by (rewrite repeat_length; exact H).
  rewrite skipn_repeat. reflexivity.
Qed.

Lemma dispatcher_buffer_short (dgram : list byte) :
  length dgram < DatagramSize ->
  exists k,
    conn_Read (repeat x00 DatagramSize) dgram = dgram ++ x00 :: repeat x00 k.
Proof.
  intros H. rewrite dispatcher_buffer by lia.
  destruct (DatagramSize - length dgram) as [|k] eqn:Ek; [lia|].
  exists k. reflexivity.
Qed.

Lemma ListenAndServe_cons_accept (dgram : list byte) (from : Addr)
  (later : list inbound) (r : ReadWriteRequest) :
  ReadWriteRequest_UnmarshalBinary {| Filename := []; Mode := [] |}
    (conn_Read (repeat x00 DatagramSize) dgram) = (r, None) ->
  ListenAndServe (Recv dgram from :: later)
  = (Go_handle from r :: fst (ListenAndServe later),
     snd (ListenAndServe later)).
Proof.
  unfold ListenAndServe. cbn [ListenAndServe_loop]. intros ->.
  rewrite (ListenAndServe_loop_receiver r {| Filename := []; Mode := [] |}).
  destruct (ListenAndServe_loop _ later). reflexivity.
Qed.

(** X15 -- For a datagram of at most 516 bytes that holds the opcode Read
    or Write, a filename that is not empty and a mode that is [octet] in any
    letter case, each closed by a zero byte, the dispatcher writes nothing
    to the sender and starts one session for the sender, with the filename
    and the mode [octet]; it does so for the opcode Write as for Read, and
    whatever bytes follow the mode; then it serves the next datagram. *)
Theorem dispatcher_accepts (op : byte) (fname mode rest : list byte)
  (from : Addr) (later : list inbound) :
  op = x01 \/ op = x02 ->
  fname <> [] -> ~ In x00 fname -> ToLower mode = octet ->
  length (x00 :: op :: fname ++ x00 :: mode ++ x00 :: rest) <= DatagramSize ->
  ListenAndServe
    (Recv (x00 :: op :: fname ++ x00 :: mode ++ x00 :: rest) from :: later)
  = (Go_handle from {| Filename := fname; Mode := octet |}
       :: fst (ListenAndServe later),
     snd (ListenAndServe later)).
Proof.
  intros Hop Hne Hf Hm Hlen. apply ListenAndServe_cons_accept.
  rewrite dispatcher_buffer by exact Hlen.
  set (pad := repeat x00 _).
  cbn [app]. rewrite <- app_assoc. cbn [app]. rewrite <- app_assoc.
  cbn [app]. apply decodeRequest_accepts; assumption.
Qed.

Lemma dispatcher_accepts_witness :
  ListenAndServe
    (Recv (x00 :: x02 :: list_byte_of_string "f" ++ x00
             :: list_byte_of_string "Octet" ++ x00 :: [x07]) "c" :: [])
  = (Go_handle "c" {| Filename := list_byte_of_string "f"; Mode := octet |}
       :: fst (ListenAndServe []),
     snd (ListenAndServe [])).
Proof.
  apply (@dispatcher_accepts x02 (list_byte_of_string "f")
           (list_byte_of_string "Octet") [x07] "c" []).
  - right. reflexivity.
  - discriminate.
  - cbn. intros H. repeat (destruct H as [H|H]; [discriminate|]). exact H.
  - reflexivity.
  - cbn. unfold DatagramSize. lia.
Defined.

(** X16 -- The dispatcher decodes its zeroed buffer of 516 bytes, not the
    datagram: a request whose mode is not closed by a zero byte, which
    [ReadWriteRequest.UnmarshalBinary] rejects when it is given the bytes
    of the datagram alone, is accepted by the dispatcher whenever it is
    shorter than 516 bytes, the first zero byte of the buffer closing the
    mode. *)
Theorem dispatcher_zero_padding (op : byte) (fname mode : list byte)
  (from : Addr) (later : list inbound) (r0 : ReadWriteRequest) :
  op = x01 \/ op = x02 ->
  fname <> [] -> ~ In x00 fname -> ToLower mode = octet ->
  length (x00 :: op :: fname ++ x00 :: mode) < DatagramSize ->
  snd (ReadWriteRequest_UnmarshalBinary r0 (x00 :: op :: fname ++ x00 :: mode))
  = Some invalid_request /\
  ListenAndServe (Recv (x00 :: op :: fname ++ x00 :: mode) from :: later)
  = (Go_handle from {| Filename := fname; Mode := octet |}
       :: fst (ListenAndServe later),
     snd (ListenAndServe later)).
Proof.
  intros Hop Hne Hf Hm Hlen.
  pose proof (ToLower_octet_no_NUL _ Hm) as Hmn. split.
  - unfold ReadWriteRequest_UnmarshalBinary. cbn [binary_Read].
    replace (negb (Uint16 x00 op =? ReadOp)%Z
             && negb (Uint16 x00 op =? WriteOp)%Z)
      with false by (symmetry; apply request_opcode; auto).
    rewrite ReadString_found by exact Hf.
    cbn [Filename Mode]. rewrite TrimRight_NUL_terminated by exact Hf.
    destruct fname as [|f0 fname']; [congruence|]. cbn [length Nat.eqb].
    rewrite ReadString_no_delim by exact Hmn. reflexivity.
  - apply ListenAndServe_cons_accept.
    destruct (dispatcher_buffer_short _ Hlen) as [k ->].
    cbn [app]. rewrite <- app_assoc. cbn [app].
    apply decodeRequest_accepts; assumption.
Qed.

Lemma dispatcher_zero_padding_witness :
  snd (ReadWriteRequest_UnmarshalBinary {| Filename := []; Mode := [] |}
         (x00 :: x01 :: list_byte_of_string "f" ++ x00
            :: list_byte_of_string "octet"))
  = Some invalid_request /\
  ListenAndServe
    (Recv (x00 :: x01 :: list_byte_of_string "f" ++ x00
             :: list_byte_of_string "octet") "c" :: [])
  = (Go_handle "c" {| Filename := list_byte_of_string "f"; Mode := octet |}
       :: fst (ListenAndServe []),
     snd (ListenAndServe [])).
Proof.
  apply (@dispatcher_zero_padding x01 (list_byte_of_string "f")
           (list_byte_of_string "octet") "c" []
           {| Filename := []; Mode := [] |}).
  - left. reflexivity.
  - discriminate.
  - cbn. intros H. repeat (destruct H as [H|H]; [discriminate|]). exact H.
  - reflexivity.
  - cbn. unfold DatagramSize. lia.
Defined.

(** X17 -- The dispatcher handles the datagrams one by one and keeps
    nothing from one to the next: over datagrams that all arrive it takes
    exactly one action for each, in their order, and what it does for a
    sequence of them followed by more arrivals is what it does for the
    sequence, then what it does for the rest.  It stops, returning the
    error, at the first failure of [ReadFrom], and at nothing else. *)
Theorem ListenAndServe_app (pre post : list inbound) :
  all_received pre ->
  ListenAndServe (pre ++ post)
  = (fst (ListenAndServe pre) ++ fst (ListenAndServe post),
     snd (ListenAndServe post)) /\
  length (fst (ListenAndServe pre)) = length pre /\
  snd (ListenAndServe pre) = None /\
  (forall e, ListenAndServe (pre ++ RecvFails e :: post)
             = (fst (ListenAndServe pre), Some e)).
Proof.
  unfold ListenAndServe. generalize {| Filename := []; Mode := [] |} as r0.
  induction pre as [|i pre IH]; intros r0 Hall.
  - cbn [app ListenAndServe_loop fst snd length].
    split; [destruct (ListenAndServe_loop r0 post); reflexivity|].
    split; [reflexivity|]. split; reflexivity.
  - inversion Hall as [|i' pre' (dgram & from & ->) Hall']; subst.
    cbn [app ListenAndServe_loop].
    destruct (ReadWriteRequest_UnmarshalBinary r0 _) as [r1 err].
    destruct (IH r1 Hall') as (Happ & Hlen & Hret & Hfail).
    rewrite Happ.
    rewrite (ListenAndServe_loop_receiver r1 r0 post).
    destruct (ListenAndServe_loop r1 pre) as [acts ret] eqn:Epre.
    cbn [fst snd] in *. cbn [app length].
    split; [reflexivity|]. split; [rewrite Hlen; reflexivity|].
    split; [exact Hret|]. intros e. rewrite (Hfail e). reflexivity.
Qed.

Lemma ListenAndServe_app_witness :
  let pre := [Recv [x01; x02; x03] "a";
              Recv (x00 :: x01 :: list_byte_of_string "f" ++ x00
                      :: list_byte_of_string "octet") "b"] in
  let post := [Recv [] "c"] in
  ListenAndServe (pre ++ post)
  = (fst (ListenAndServe pre) ++ fst (ListenAndServe post),
     snd (ListenAndServe post)) /\
  length (fst (ListenAndServe pre)) = length pre /\
  snd (ListenAndServe pre) = None /\
  (forall e, ListenAndServe (pre ++ RecvFails e :: post)
             = (fst (ListenAndServe pre), Some e)).
Proof.
  apply (@ListenAndServe_app
           [Recv [x01; x02; x03] "a";
            Recv (x00 :: x01 :: list_byte_of_string "f" ++ x00
                    :: list_byte_of_string "octet") "b"]
           [Recv [] "c"]).
  repeat constructor; eexists; eexists; reflexivity.
Defined.

(** X18 -- The dispatcher reads at most 516 bytes of a datagram: what it
    does for a datagram is what it does for its first 516 bytes. *)
Theorem dispatcher_reads_516 (dgram : list byte) (from : Addr)
  (later : list inbound) :
  ListenAndServe (Recv dgram from :: later)
  = ListenAndServe (Recv (firstn 516 dgram) from :: later).
Proof.
  unfold ListenAndServe. cbn [ListenAndServe_loop].
  replace (conn_Read (repeat x00 DatagramSize) (firstn 516 dgram))
    with (conn_Read (repeat x00 DatagramSize) dgram); [reflexivity|].
  unfold conn_Read. rewrite repeat_length, !skipn_repeat, length_firstn.
  change DatagramSize with 516.
  rewrite firstn_firstn, Nat.min_id. f_equal. f_equal. lia.
Qed.
